(** * ColorValue: a shallow embedding of [ColorValue.js]

    The class stores a colour as four JavaScript numbers [r], [g], [b], [a]
    and converts between hexadecimal strings, CSS [rgb()]/[hsl()] strings,
    packed integers, float vectors and structured records.

    JavaScript numbers are IEEE 754 binary64 values; they are modelled by
    Rocq's primitive [float], whose operations are the same binary64
    operations with round-to-nearest-even.  JavaScript strings are modelled by
    [string]; a character is a code unit below 256 (Latin-1). *)

From Stdlib Require Import ZArith Floats String Ascii List Bool Lia.
From Stdlib Require DecimalString HexadecimalString.
From stdpp Require Import base gmap strings.
Import ListNotations.

Local Open Scope string_scope.
Local Open Scope Z_scope.

(** ** JavaScript numbers *)

Module Num.

(** The number with the mathematical value [n], rounded to nearest-even when
    [n] needs more than 53 bits. *)
Definition of_Z (n : Z) : float :=
  SF2Prim (binary_normalize prec emax n 0 false).

Definition isNaN (x : float) : bool := is_nan x.

(** [Math.max] and [Math.min] of two numbers: NaN is contagious and
    [+0] is larger than [-0]. *)
Definition Math_max (x y : float) : float :=
  if is_nan x || is_nan y then PrimFloat.nan
  else if (x <? y)%float then y
  else if (y <? x)%float then x
  else if get_sign x then y else x.

Definition Math_min (x y : float) : float :=
  if is_nan x || is_nan y then PrimFloat.nan
  else if (x <? y)%float then x
  else if (y <? x)%float then y
  else if get_sign x then x else y.

(** The three-argument calls of the source fold from the left. *)
Definition Math_max3 (x y z : float) : float := Math_max (Math_max x y) z.
Definition Math_min3 (x y z : float) : float := Math_min (Math_min x y) z.

Definition Math_abs (x : float) : float := abs x.

(** [Math.round]: the integer nearest to [x], a tie going towards
    [+Infinity]; that is [floor (x + 1/2)] computed exactly.  A result of
    zero keeps the sign of [x]. *)
Definition Math_round (x : float) : float :=
  match Prim2SF x with
  | S754_finite s m e =>
      if 0 <=? e then x
      else
        let M := if s then Zneg m else Zpos m in
        let n := Z.shiftr (2 * M + 2 ^ (- e)) (1 - e) in
        if n =? 0 then (if s then PrimFloat.neg_zero else PrimFloat.zero) else of_Z n
  | _ => x
  end.

(** The [%] operator: the remainder of the truncating division, exact, with
    the sign of the dividend. *)
Definition rem (n d : float) : float :=
  match Prim2SF n, Prim2SF d with
  | S754_nan, _ | _, S754_nan => PrimFloat.nan
  | S754_infinity _, _ => PrimFloat.nan
  | _, S754_zero _ => PrimFloat.nan
  | _, S754_infinity _ => n
  | S754_zero _, _ => n
  | S754_finite sn mn en, S754_finite _ md ed =>
      let e := Z.min en ed in
      let N := Z.shiftl (Zpos mn) (en - e) in
      let D := Z.shiftl (Zpos md) (ed - e) in
      let r := Z.rem N D in
      if r =? 0 then (if sn then PrimFloat.neg_zero else PrimFloat.zero)
      else SF2Prim (binary_normalize prec emax (if sn then - r else r) e false)
  end.

(** Truncation towards zero of a finite number; [0] for NaN and the
    infinities. *)
Definition truncate (x : float) : Z :=
  match Prim2SF x with
  | S754_finite s m e =>
      let a := Z.shiftl (Zpos m) e in if s then - a else a
  | _ => 0
  end.

Definition int32_wrap (k : Z) : Z :=
  let k := k mod 2 ^ 32 in
  if 2 ^ 31 <=? k then k - 2 ^ 32 else k.

(** [ToInt32], the coercion applied by the bitwise operators. *)
Definition ToInt32 (x : float) : Z := int32_wrap (truncate x).

(** The value [(-1)^neg * m * 10^e10] of a decimal literal, correctly
    rounded.  For a negative exponent the quotient is computed with more
    than 64 bits and a sticky bit, then rounded once. *)
Definition of_decimal (neg : bool) (m : Z) (e10 : Z) : float :=
  let sgn (v : float) := if neg then (- v)%float else v in
  if m =? 0 then sgn PrimFloat.zero
  else if 0 <=? e10 then
    if 400 <? e10 then sgn PrimFloat.infinity
    else sgn (SF2Prim (binary_normalize prec emax (m * 10 ^ e10) 0 false))
  else
    let k := - e10 in
    if Z.log2 m + 1 <? 3 * (k - 400) then sgn PrimFloat.zero
    else
      let d := 10 ^ k in
      let s := Z.max 0 (66 + Z.log2 d - Z.log2 m) in
      let (q, r) := Z.div_eucl (Z.shiftl m s) d in
      let q' := if r =? 0 then 2 * q else 2 * q + 1 in
      sgn (SF2Prim (binary_normalize prec emax q' (- s - 1) false)).

End Num.

(** ** JavaScript strings *)

Module Str.

Definition code (c : ascii) : Z := Z.of_N (N_of_ascii c).

(** White space and line terminators below 256, as removed by [trim] and
    skipped by [parseInt] and [parseFloat]. *)
Definition isWhiteSpace (c : ascii) : bool :=
  let n := code c in
  ((9 <=? n) && (n <=? 13)) || (n =? 32) || (n =? 160).

Fixpoint trimStart (s : string) : string :=
  match s with
  | EmptyString => EmptyString
  | String c t => if isWhiteSpace c then trimStart t else s
  end.

Fixpoint trimEnd (s : string) : string :=
  match s with
  | EmptyString => EmptyString
  | String c t =>
      match trimEnd t with
      | EmptyString => if isWhiteSpace c then EmptyString else String c EmptyString
      | t' => String c t'
      end
  end.

Definition trim (s : string) : string := trimEnd (trimStart s).

Definition lowerChar (c : ascii) : ascii :=
  let n := code c in
  if ((65 <=? n) && (n <=? 90))
     || ((192 <=? n) && (n <=? 222) && negb (n =? 215))
  then ascii_of_N (Z.to_N (n + 32)) else c.

Fixpoint toLowerCase (s : string) : string :=
  match s with
  | EmptyString => EmptyString
  | String c t => String (lowerChar c) (toLowerCase t)
  end.

Definition startsWith (s p : string) : bool := String.prefix p s.

(** [s.replace(c, '')] for a one-character pattern: only the first
    occurrence is removed. *)
Fixpoint removeFirst (c : ascii) (s : string) : string :=
  match s with
  | EmptyString => EmptyString
  | String d t => if Ascii.eqb c d then t else String d (removeFirst c t)
  end.

Definition slice (i j : nat) (s : string) : string :=
  String.substring i (j - i) s.

(** [s[i]] for an index inside the string. *)
Definition charAt (i : nat) (s : string) : string := String.substring i 1 s.

Fixpoint drop (n : nat) (s : string) : string :=
  match n, s with
  | S k, String _ t => drop k t
  | _, _ => s
  end.

Fixpoint split (sep : ascii) (s : string) : list string :=
  match s with
  | EmptyString => [EmptyString]
  | String c t =>
      if Ascii.eqb c sep then EmptyString :: split sep t
      else match split sep t with
           | h :: r => String c h :: r
           | [] => [String c EmptyString]
           end
  end.

Definition padStart2 (s : string) : string :=
  match String.length s with
  | O => "00"
  | S O => String "0" s
  | _ => s
  end.

(** *** Digits *)

Definition decDigit (c : ascii) : option Z :=
  let n := code c in
  if (48 <=? n) && (n <=? 57) then Some (n - 48) else None.

Definition hexDigit (c : ascii) : option Z :=
  let n := code c in
  if (48 <=? n) && (n <=? 57) then Some (n - 48)
  else if (97 <=? n) && (n <=? 102) then Some (n - 87)
  else if (65 <=? n) && (n <=? 70) then Some (n - 55)
  else None.

(** The longest prefix of digits, as values, and the rest of the string. *)
Fixpoint span (digit : ascii -> option Z) (s : string) : list Z * string :=
  match s with
  | EmptyString => ([], EmptyString)
  | String c t =>
      match digit c with
      | Some d => let (ds, r) := span digit t in (d :: ds, r)
      | None => ([], s)
      end
  end.

Definition digitsValue (radix : Z) (ds : list Z) : Z :=
  fold_left (fun a d => radix * a + d) ds 0.

Definition signOf (s : string) : bool * string :=
  match s with
  | String "-" t => (true, t)
  | String "+" t => (false, t)
  | _ => (false, s)
  end.

(** [parseInt(s, 16)]. *)
Definition parseInt16 (s : string) : float :=
  let (neg, s1) := signOf (trimStart s) in
  let s2 := if String.prefix "0x" s1 || String.prefix "0X" s1
            then drop 2 s1 else s1 in
  match fst (span hexDigit s2) with
  | [] => PrimFloat.nan
  | ds => let v := Num.of_Z (digitsValue 16 ds) in
          if neg then (- v)%float else v
  end.

(** A [StrUnsignedDecimalLiteral] at the start of [s], without the
    [Infinity] case: digits, an optional fraction, an optional exponent. *)
Definition scanUnsigned (neg : bool) (s : string) : option (float * string) :=
  let (ip, r1) := span decDigit s in
  let '(fp, r2) :=
    match r1 with
    | String "." t =>
        let (fp, r) := span decDigit t in
        match ip, fp with
        | [], [] => ([], r1)
        | _, _ => (fp, r)
        end
    | _ => ([], r1)
    end in
  match List.app ip fp with
  | [] => None
  | ds =>
      let '(ex, r3) :=
        match r2 with
        | String c t =>
            if Ascii.eqb c "e" || Ascii.eqb c "E" then
              let (eneg, t') := signOf t in
              match span decDigit t' with
              | ([], _) => (0, r2)
              | (es, r) => (let v := digitsValue 10 es in
                            if eneg then - v else v, r)
              end
            else (0, r2)
        | EmptyString => (0, r2)
        end in
      Some (Num.of_decimal neg (digitsValue 10 ds)
              (ex - Z.of_nat (length fp)), r3)
  end.

(** A [StrDecimalLiteral] at the start of [s]. *)
Definition scanDecimal (s : string) : option (float * string) :=
  let (neg, t) := signOf s in
  if String.prefix "Infinity" t
  then Some (if neg then PrimFloat.neg_infinity else PrimFloat.infinity,
             drop 8 t)
  else scanUnsigned neg t.

Definition parseFloat (s : string) : float :=
  match scanDecimal (trimStart s) with
  | Some (v, _) => v
  | None => PrimFloat.nan
  end.

Definition wholeDigits (digit : ascii -> option Z) (radix : Z) (s : string)
  : float :=
  match span digit s with
  | (d :: ds, EmptyString) => Num.of_Z (digitsValue radix (d :: ds))
  | _ => PrimFloat.nan
  end.

Definition octDigit (c : ascii) : option Z :=
  match decDigit c with Some d => if d <? 8 then Some d else None | None => None end.

Definition binDigit (c : ascii) : option Z :=
  match decDigit c with Some d => if d <? 2 then Some d else None | None => None end.

(** [ToNumber] of a string: the whole trimmed string has to be a numeric
    literal; the empty string is [0]. *)
Definition StringToNumber (s : string) : float :=
  match trim s with
  | EmptyString => PrimFloat.zero
  | String "0" (String p t) as u =>
      if Ascii.eqb p "x" || Ascii.eqb p "X" then wholeDigits hexDigit 16 t
      else if Ascii.eqb p "o" || Ascii.eqb p "O" then wholeDigits octDigit 8 t
      else if Ascii.eqb p "b" || Ascii.eqb p "B" then wholeDigits binDigit 2 t
      else match scanDecimal u with
           | Some (v, EmptyString) => v
           | _ => PrimFloat.nan
           end
  | u => match scanDecimal u with
         | Some (v, EmptyString) => v
         | _ => PrimFloat.nan
         end
  end.

(** *** Numbers to strings *)

Definition decimalOfZ (n : Z) : string :=
  DecimalString.NilZero.string_of_int (Z.to_int n).

Definition hexOfZ (n : Z) : string :=
  HexadecimalString.NilZero.string_of_int (Z.to_hex_int n).

(** [Number.prototype.toString] in radix 10 or 16, as the source uses it:
    on results of [Math.round], that is on NaN, the infinities and integral
    numbers (all of them below 1e21, where JavaScript prints every digit).
    The digits of a fraction are not produced. *)
Definition integerToString (radix16 : bool) (x : float) : string :=
  match Prim2SF x with
  | S754_nan => "NaN"
  | S754_infinity s => if s then "-Infinity" else "Infinity"
  | S754_zero _ => "0"
  | S754_finite _ _ _ =>
      let n := Num.truncate x in
      if radix16 then hexOfZ n else decimalOfZ n
  end.

Definition toString10 : float -> string := integerToString false.
Definition toString16 : float -> string := integerToString true.

Definition pad3 (s : string) : string :=
  match String.length s with
  | O => "000"
  | S O => "00" ++ s
  | S (S O) => "0" ++ s
  | _ => s
  end.

(** [x.toFixed(3)] for a number below 1e21 in magnitude: the integer [n]
    nearest to [x * 1000], the larger one on a tie, printed with three
    decimals. *)
Definition toFixed3 (x : float) : string :=
  match Prim2SF x with
  | S754_nan => "NaN"
  | S754_infinity s => if s then "-Infinity" else "Infinity"
  | S754_zero _ => "0.000"
  | S754_finite s m e =>
      let n := if 0 <=? e then Z.shiftl (1000 * Zpos m) e
               else Z.shiftr (2000 * Zpos m + 2 ^ (- e)) (1 - e) in
      (if s then "-" else EmptyString)
        ++ decimalOfZ (n / 1000) ++ "." ++ pad3 (decimalOfZ (n mod 1000))
  end.

(** *** The patterns [/rgba?\(([^)]+)\)/] and [/hsla?\(([^)]+)\)/]

    [search name s] is [s.match(...)]: the first capture group of the
    leftmost match, for the three-letter [name]. *)

(** The longest prefix without a closing parenthesis, and the rest. *)
Fixpoint spanArgs (s : string) : string * string :=
  match s with
  | EmptyString => (EmptyString, EmptyString)
  | String c t =>
      if Ascii.eqb c ")" then (EmptyString, s)
      else let (b, r) := spanArgs t in (String c b, r)
  end.

(** [([^)]+)\)] at the start of [s]: the group is greedy, and giving
    characters back cannot produce the parenthesis it excludes. *)
Definition matchArgs (s : string) : option string :=
  match spanArgs s with
  | (String c b, String _ _) => Some (String c b)
  | _ => None
  end.

(** The whole pattern at the start of [s]. *)
Definition matchHere (name s : string) : option string :=
  if String.prefix name s then
    match drop (String.length name) s with
    | String c u =>
        if Ascii.eqb c "(" then matchArgs u
        else if Ascii.eqb c "a" then
          match u with
          | String c' v => if Ascii.eqb c' "(" then matchArgs v else None
          | EmptyString => None
          end
        else None
    | EmptyString => None
    end
  else None.

Fixpoint search (name s : string) : option string :=
  match matchHere name s with
  | Some g => Some g
  | None =>
      match s with
      | EmptyString => None
      | String _ t => search name t
      end
  end.

End Str.

(** ** JavaScript values

    The constructor accepts any value.  The model has the primitive values,
    arrays of primitive values and objects whose own properties hold
    primitive values; an object is the finite map of its properties. *)

Inductive JsPrim : Type :=
| JsUndefined
| JsNull
| JsBool (b : bool)
| JsNumber (x : float)
| JsString (s : string).

Inductive JsInput : Type :=
| Prim (p : JsPrim)
| ArrayOf (xs : list JsPrim)
| ObjectOf (o : gmap string JsPrim).

(** [ToNumber], the coercion applied by the arithmetic operators, by [isNaN]
    and by [Math.max] and [Math.min]. *)
Definition ToNumber (v : JsPrim) : float :=
  match v with
  | JsUndefined => PrimFloat.nan
  | JsNull => PrimFloat.zero
  | JsBool b => if b then PrimFloat.one else PrimFloat.zero
  | JsNumber x => x
  | JsString s => Str.StringToNumber s
  end.

Definition isNumber (v : JsPrim) : bool :=
  match v with JsNumber _ => true | _ => false end.

(** [k in o] and [o[k]] for an object, [xs[i]] for an array. *)
Definition has (o : gmap string JsPrim) (k : string) : bool :=
  bool_decide (is_Some (o !! k)).

Definition prop (o : gmap string JsPrim) (k : string) : JsPrim :=
  default JsUndefined (o !! k).

Definition item {A} (undef : A) (xs : list A) (i : nat) : A :=
  default undef (xs !! i).

(** ** Utilities of [ColorValue.js] *)

Definition clamp01 (value : float) : float :=
  Num.Math_min 1 (Num.Math_max 0 value).

(** The function declares one parameter: the scale that the two calls in
    [setFrom] pass as a second argument is not received. *)
Definition normalizeAlpha (alpha : JsPrim) : float :=
  let alpha :=
    match alpha with
    | JsString s => JsNumber (Str.parseFloat s)
    | _ => alpha
    end in
  if Num.isNaN (ToNumber alpha) then 1%float
  else clamp01 (ToNumber alpha).

Definition hslToRgb (h s l : float) : float * float * float :=
  let h := Num.rem (Num.rem h 360 + 360) 360 in
  let s := clamp01 (s / 100) in
  let l := clamp01 (l / 100) in
  let c := ((1 - Num.Math_abs (2 * l - 1)) * s)%float in
  let x := (c * (1 - Num.Math_abs (Num.rem (h / 60) 2 - 1)))%float in
  let m := (l - c / 2)%float in
  let '(r, g, b) :=
    if (h <? 60)%float then (c, x, 0%float)
    else if (h <? 120)%float then (x, c, 0%float)
    else if (h <? 180)%float then (0%float, c, x)
    else if (h <? 240)%float then (0%float, x, c)
    else if (h <? 300)%float then (x, 0%float, c)
    else (c, 0%float, x) in
  (Num.Math_round ((r + m) * 255),
   Num.Math_round ((g + m) * 255),
   Num.Math_round ((b + m) * 255)).

Definition rgbToHsl (r g b : float) : float * float * float :=
  let r := clamp01 (r / 255) in
  let g := clamp01 (g / 255) in
  let b := clamp01 (b / 255) in
  let max := Num.Math_max3 r g b in
  let min := Num.Math_min3 r g b in
  let delta := (max - min)%float in
  let h :=
    if negb (delta =? 0)%float then
      let h :=
        if (max =? r)%float then Num.rem ((g - b) / delta) 6
        else if (max =? g)%float then ((b - r) / delta + 2)%float
        else ((r - g) / delta + 4)%float in
      let h := (h * 60)%float in
      if (h <? 0)%float then (h + 360)%float else h
    else 0%float in
  let l := ((max + min) / 2)%float in
  let s := if (delta =? 0)%float then 0%float
           else (delta / (1 - Num.Math_abs (2 * l - 1)))%float in
  (Num.Math_round h, Num.Math_round (s * 100), Num.Math_round (l * 100)).

(** ** The class *)

Inductive Error : Type :=
| UnsupportedFormat
| InvalidHex
| InvalidCSSRGB
| InvalidCSSHSL
| UnknownNamedColor.

(** The message of the [Error] thrown for each kind. *)
Definition message (e : Error) : string :=
  match e with
  | UnsupportedFormat => "Unsupported color format"
  | InvalidHex => "Invalid hex format"
  | InvalidCSSRGB => "Invalid CSS RGB format"
  | InvalidCSSHSL => "Invalid CSS HSL format"
  | UnknownNamedColor => "Unknown named color"
  end.

Inductive Result (A : Type) : Type :=
| Ok (v : A)
| Throw (e : Error).
Arguments Ok {A} v.
Arguments Throw {A} e.

Module ColorValue.

(** The instance: its four fields are all the state it has. *)
Record t : Type := mk { r : float; g : float; b : float; a : float }.

(** Every caller passes the four arguments, so the default of [a] is never
    taken. *)
Definition setRGBAf (r g b a : float) : t :=
  mk (clamp01 r) (clamp01 g) (clamp01 b) (clamp01 a).

Definition setInteger (value : float) : t :=
  let v := Num.ToInt32 value in
  let r := Num.of_Z (Z.land (Z.shiftr v 16) 255) in
  let g := Num.of_Z (Z.land (Z.shiftr v 8) 255) in
  let b := Num.of_Z (Z.land v 255) in
  setRGBAf (r / 255) (g / 255) (b / 255) 1.

(** [const [r, g, b, a = 1] = arr]: the default replaces a missing or
    undefined fourth element. *)
Definition setFloatVector (arr : list JsPrim) : t :=
  let r := item JsUndefined arr 0 in
  let g := item JsUndefined arr 1 in
  let b := item JsUndefined arr 2 in
  let a := match item JsUndefined arr 3 with
           | JsUndefined => JsNumber 1
           | v => v
           end in
  setRGBAf (ToNumber r) (ToNumber g) (ToNumber b) (ToNumber a).

(** The divisions coerce [r], [g] and [b]; [a] is a number at both calls. *)
Definition setRGBA (r g b : JsPrim) (a : float) : t :=
  setRGBAf (ToNumber r / 255) (ToNumber g / 255) (ToNumber b / 255) (a / 255).

(** [hslToRgb] starts with arithmetic on [h], [s] and [l], which coerces
    them. *)
Definition setHSL (h s l : JsPrim) (a : float) : t :=
  let '(r, g, b) := hslToRgb (ToNumber h) (ToNumber s) (ToNumber l) in
  setRGBAf r g b a.

Definition setHex (hex : string) : Result t :=
  let clean := Str.removeFirst "#" hex in
  if Nat.eqb (String.length clean) 3 then
    let r := Str.parseInt16 (Str.charAt 0 clean ++ Str.charAt 0 clean) in
    let g := Str.parseInt16 (Str.charAt 1 clean ++ Str.charAt 1 clean) in
    let b := Str.parseInt16 (Str.charAt 2 clean ++ Str.charAt 2 clean) in
    Ok (setRGBA (JsNumber r) (JsNumber g) (JsNumber b) 255)
  else if Nat.eqb (String.length clean) 6 then
    let r := Str.parseInt16 (Str.slice 0 2 clean) in
    let g := Str.parseInt16 (Str.slice 2 4 clean) in
    let b := Str.parseInt16 (Str.slice 4 6 clean) in
    Ok (setRGBA (JsNumber r) (JsNumber g) (JsNumber b) 255)
  else Throw InvalidHex.

(** A missing part is [undefined], and [undefined / 255] is NaN; the
    default of [a] replaces a missing fourth part only. *)
Definition setCSSRGB (str : string) : Result t :=
  match Str.search "rgb" str with
  | None => Throw InvalidCSSRGB
  | Some args =>
      let parts :=
        map (fun v => JsNumber (Str.parseFloat (Str.trim v)))
            (Str.split "," args) in
      let r := item JsUndefined parts 0 in
      let g := item JsUndefined parts 1 in
      let b := item JsUndefined parts 2 in
      let a := match item JsUndefined parts 3 with
               | JsUndefined => JsNumber 1
               | v => v
               end in
      Ok (setRGBAf (ToNumber r / 255) (ToNumber g / 255) (ToNumber b / 255)
            (ToNumber a))
  end.

(** [parseFloat] of a missing part reads the string ["undefined"]. *)
Definition setCSSHSL (str : string) : Result t :=
  match Str.search "hsl" str with
  | None => Throw InvalidCSSHSL
  | Some args =>
      let parts := map Str.trim (Str.split "," args) in
      let part i := item "undefined" parts i in
      let h := Str.parseFloat (part 0%nat) in
      let s := (Str.parseFloat (part 1%nat) / 100)%float in
      let l := (Str.parseFloat (part 2%nat) / 100)%float in
      let a := match parts !! 3%nat with
               | Some p => Str.parseFloat p
               | None => 1%float
               end in
      Ok (setHSL (JsNumber h) (JsNumber s) (JsNumber l) a)
  end.

Section Canvas.

(** The 2D context of a canvas: [fillStyle name] is what [ctx.fillStyle]
    reads after [name] was assigned to it. *)
Variable fillStyle : string -> string.

Definition setNamed (name : string) : Result t :=
  let computed := fillStyle name in
  if String.eqb computed EmptyString
     || (String.eqb computed "#000000" && negb (String.eqb name "black"))
  then Throw UnknownNamedColor
  else setHex computed.

(** The entry point for all formats.  An array that is not a float vector
    goes on to the record test of the source, where it has neither group of
    keys. *)
Definition setFrom (input : JsInput) : Result t :=
  match input with
  | Prim (JsString input) =>
      let trimmed := Str.toLowerCase (Str.trim input) in
      if Str.startsWith trimmed "#" then setHex trimmed
      else if Str.startsWith trimmed "rgb" then setCSSRGB trimmed
      else if Str.startsWith trimmed "hsl" then setCSSHSL trimmed
      else setNamed trimmed
  | Prim (JsNumber input) => Ok (setInteger input)
  | Prim _ => Throw UnsupportedFormat
  | ArrayOf input =>
      if (3 <=? length input)%nat && forallb isNumber input
      then Ok (setFloatVector input)
      else Throw UnsupportedFormat
  | ObjectOf input =>
      if has input "r" && has input "g" && has input "b" then
        let alpha := normalizeAlpha (prop input "a") in
        Ok (setRGBA (prop input "r") (prop input "g") (prop input "b") alpha)
      else if has input "h" && has input "s" && has input "l" then
        let alpha := normalizeAlpha (prop input "a") in
        Ok (setHSL (prop input "h") (prop input "s") (prop input "l") alpha)
      else Throw UnsupportedFormat
  end.

(** [new ColorValue(input)]: [input ?? { r: 0, g: 0, b: 0, a: 1 }]. *)
Definition new (input : JsInput) : Result t :=
  setFrom
    match input with
    | Prim JsUndefined | Prim JsNull =>
        ObjectOf (<["r" := JsNumber 0]> (<["g" := JsNumber 0]>
                 (<["b" := JsNumber 0]> (<["a" := JsNumber 1]> ∅))))
    | _ => input
    end.

End Canvas.

(** *** Getters *)

Definition byte (x : float) : float := Num.Math_round (x * 255).

Definition Integer (c : t) : float :=
  let sl (x : float) (k : Z) := Num.int32_wrap (Z.shiftl (Num.ToInt32 x) k) in
  Num.of_Z (Z.lor (Z.lor (sl (byte (r c)) 16) (sl (byte (g c)) 8))
                  (Num.ToInt32 (byte (b c)))).

Definition Hex (c : t) : string :=
  let r := Str.padStart2 (Str.toString16 (byte (r c))) in
  let g := Str.padStart2 (Str.toString16 (byte (g c))) in
  let b := Str.padStart2 (Str.toString16 (byte (b c))) in
  "#" ++ r ++ g ++ b.

Definition CSSRGB (c : t) : string :=
  let r := Str.toString10 (byte (r c)) in
  let g := Str.toString10 (byte (g c)) in
  let b := Str.toString10 (byte (b c)) in
  if (a c <? 1)%float
  then "rgba(" ++ r ++ ", " ++ g ++ ", " ++ b ++ ", "
               ++ Str.toFixed3 (a c) ++ ")"
  else "rgb(" ++ r ++ ", " ++ g ++ ", " ++ b ++ ")".

Definition CSSHSL (c : t) : string :=
  let '(h, s, l) := rgbToHsl (r c) (g c) (b c) in
  let hStr := Str.toString10 (Num.Math_round h) in
  let sStr := Str.toString10 (Num.Math_round (s * 100)) in
  let lStr := Str.toString10 (Num.Math_round (l * 100)) in
  if (a c <? 1)%float
  then "hsla(" ++ hStr ++ ", " ++ sStr ++ "%, " ++ lStr ++ "%, "
               ++ Str.toFixed3 (a c) ++ ")"
  else "hsl(" ++ hStr ++ ", " ++ sStr ++ "%, " ++ lStr ++ "%)".

Definition FloatVector (c : t) : list float := [r c; g c; b c; a c].

(** The record [{r, g, b, a}] of bytes. *)
Definition RGBA (c : t) : float * float * float * float :=
  (byte (r c), byte (g c), byte (b c), byte (a c)).

(** The record [{h, s, l, a}]. *)
Definition HSL (c : t) : float * float * float * float :=
  let '(h, s, l) := rgbToHsl (r c) (g c) (b c) in
  (h, s, l, a c).

End ColorValue.

(** ** Notions used by the statements *)

(** A channel in the closed interval from 0 to 1. *)
Definition inUnit (x : float) : bool := (0 <=? x)%float && (x <=? 1)%float.

Definition channelsInUnit (c : ColorValue.t) : bool :=
  inUnit (ColorValue.r c) && inUnit (ColorValue.g c)
  && inUnit (ColorValue.b c) && inUnit (ColorValue.a c).




Definition isByte (n : Z) : Prop := 0 <= n <= 255.

(** The bytes, for proofs by enumeration. *)
Definition allBytes : list Z := map Z.of_nat (seq 0 256).

(** The key sets that [setFrom] looks for in a record. *)
Definition rgbKeys : gset string := {[ "r"; "g"; "b" ]}.
Definition hslKeys : gset string := {[ "h"; "s"; "l" ]}.

(** Sample records: one with both groups of keys, one with the HSL keys
    only, one with neither group. *)
Definition bothRecord : gmap string JsPrim :=
  {[ "r" := JsNumber 255; "g" := JsNumber 0; "b" := JsNumber 0;
     "h" := JsNumber 120; "s" := JsNumber 100; "l" := JsNumber 50 ]}.
Definition hslRecord : gmap string JsPrim :=
  {[ "h" := JsNumber 120; "s" := JsNumber 100; "l" := JsNumber 50;
     "r" := JsNumber 255 ]}.
Definition otherRecord : gmap string JsPrim :=
  {[ "r" := JsNumber 255; "g" := JsNumber 0; "h" := JsNumber 120 ]}.

(** Every character, for proofs by enumeration. *)
Definition allAscii : list ascii := map ascii_of_nat (seq 0 256).

(** A hex string with or without the leading [#]. *)
Definition hexInput (hash : bool) (digits : string) : string :=
  if hash then String "#" digits else digits.

(** What the hex decoder needs of two hex digits: they parse to the byte
    [16 * v0 + v1], the byte divided by 255 is its own clamp, and neither
    digit is the [#] that [replace] looks for. *)
Definition pairCheck (c0 c1 : ascii) : bool :=
  match Str.hexDigit c0, Str.hexDigit c1 with
  | Some v0, Some v1 =>
      let n := 16 * v0 + v1 in
      PrimFloat.Leibniz.eqb (Str.parseInt16 (String c0 (String c1 EmptyString)))
                            (Num.of_Z n)
      && PrimFloat.Leibniz.eqb (clamp01 (Num.of_Z n / 255)) (Num.of_Z n / 255)
      && (0 <=? n) && (n <=? 255)
      && negb (Ascii.eqb "#" c0) && negb (Ascii.eqb "#" c1)
  | _, _ => true
  end.

(** A character that [trim] keeps and [toLowerCase] leaves alone. *)
Definition plain (c : ascii) : bool :=
  negb (Str.isWhiteSpace c) && Ascii.eqb (Str.lowerChar c) c.

Fixpoint allPlain (s : string) : bool :=
  match s with
  | EmptyString => true
  | String c t => plain c && allPlain t
  end.

(** What the round trip needs of a byte [n]: its padded hex form is two plain
    hex digits with the value [n], and [n / 255] scales back to [n]. *)
Definition byteCheck (n : Z) : bool :=
  match Str.padStart2 (Str.toString16 (Num.of_Z n)) with
  | String c0 (String c1 EmptyString) =>
      plain c0 && plain c1
      && match Str.hexDigit c0, Str.hexDigit c1 with
         | Some v0, Some v1 => 16 * v0 + v1 =? n
         | _, _ => false
         end
      && PrimFloat.Leibniz.eqb (ColorValue.byte (Num.of_Z n / 255)) (Num.of_Z n)
  | _ => false
  end.

(** A string without a closing parenthesis. *)
Fixpoint noParen (s : string) : bool :=
  match s with
  | EmptyString => true
  | String c t => negb (Ascii.eqb c ")") && noParen t
  end.

(** The pattern [/rgba?\(([^)]+)\)/] (or the one for [hsl]) matches somewhere
    in [s]: the name, an optional [a], an opening parenthesis, one or more
    characters other than a closing parenthesis, and a closing parenthesis. *)
Definition Matches (name s : string) : Prop :=
  exists pre opt args post : string,
    s = pre ++ name ++ opt ++ String "(" (args ++ String ")" post)
    /\ (opt = EmptyString \/ opt = "a") /\ args <> EmptyString /\ noParen args = true.

(** A channel that is NaN or in the closed interval from 0 to 1. *)
Definition nanOrUnit (x : float) : bool := is_nan x || inUnit x.

Definition channelsNanOrUnit (c : ColorValue.t) : bool :=
  nanOrUnit (ColorValue.r c) && nanOrUnit (ColorValue.g c)
  && nanOrUnit (ColorValue.b c) && nanOrUnit (ColorValue.a c).

(** What normalising a string needs of a character: lowering it neither
    makes nor removes white space, and lowering twice is lowering once. *)
Definition charCheck (c : ascii) : bool :=
  Bool.eqb (Str.isWhiteSpace (Str.lowerChar c)) (Str.isWhiteSpace c)
  && Ascii.eqb (Str.lowerChar (Str.lowerChar c)) (Str.lowerChar c).

(** A string that does not start with white space. *)
Definition startsClean (s : string) : bool :=
  match s with
  | EmptyString => true
  | String c _ => negb (Str.isWhiteSpace c)
  end.

(** A channel that is exactly 0, 1 or NaN. *)
Definition zeroOneNaN (x : float) : Prop :=
  x = 0%float \/ x = 1%float \/ x = PrimFloat.nan.

Definition binaryChannels (c : ColorValue.t) : Prop :=
  zeroOneNaN (ColorValue.r c) /\ zeroOneNaN (ColorValue.g c)
  /\ zeroOneNaN (ColorValue.b c).

(** A string without a comma. *)
Fixpoint noComma (s : string) : bool :=
  match s with
  | EmptyString => true
  | String c t => negb (Ascii.eqb c ",") && noComma t
  end.

(** What the CSS-RGB round trip needs of a byte [n]: its decimal form has no
    parenthesis and no comma, is not empty, is left alone by [toLowerCase]
    and parses back to [n]. *)
Definition decimalCheck (n : Z) : bool :=
  let d := Str.toString10 (Num.of_Z n) in
  noParen d && noComma d && negb (String.eqb d EmptyString)
  && String.eqb (Str.toLowerCase d) d
  && PrimFloat.Leibniz.eqb (Str.parseFloat (Str.trim d)) (Num.of_Z n).

(** A canvas that knows three colour names and leaves [fillStyle] at its
    initial value for any other string. *)
Definition sampleCanvas (name : string) : string :=
  if String.eqb name "red" then "#ff0000"
  else if String.eqb name "white" then "#ffffff"
  else "#000000".

(** * Evaluations *)

(** Splits a conjunction of closed equations and computes each side. *)
Ltac evaluate :=
  repeat match goal with |- _ /\ _ => split end; (vm_compute; reflexivity).

(** Unfolds the string operations of [setHex] on a string whose characters are
    variables. *)
Ltac hex_slices :=
  unfold Str.charAt, Str.slice;
  cbn [String.length Nat.eqb String.substring Nat.sub];
  cbv [String.append].

(** The quotient [1 / 255] as a number. *)
Definition one255 : float := Eval vm_compute in (1 / 255)%float.

(** C1. The claim holds that all four channels of every constructed instance
    lie between 0 and 1, also for hex strings of length 3 or 6 and CSS
    strings whose components are not numbers.  On such inputs the
    construction succeeds and leaves NaN in the colour channels:
    [clamp01] passes NaN through. *)
Theorem C1_nan_channels (fillStyle : string -> string) :
  ColorValue.new fillStyle (Prim (JsString "#ggg"))
    = Ok (ColorValue.mk PrimFloat.nan PrimFloat.nan PrimFloat.nan 1)
  /\ ColorValue.new fillStyle (Prim (JsString "rgb(abc)"))
    = Ok (ColorValue.mk PrimFloat.nan PrimFloat.nan PrimFloat.nan 1)
  /\ ColorValue.new fillStyle (Prim (JsString "hsl(x, y, z)"))
    = Ok (ColorValue.mk PrimFloat.nan PrimFloat.nan PrimFloat.nan 1)
  /\ channelsInUnit (ColorValue.mk PrimFloat.nan PrimFloat.nan PrimFloat.nan 1)
    = false.
Proof. evaluate. Qed.

(** C2. The claim holds that an absent or null input gives opaque black,
    [a = 1].  The constructor substitutes the record [{r: 0, g: 0, b: 0, a: 1}],
    whose alpha [normalizeAlpha] leaves at 1 and [setRGBA] then divides by
    255: the instance is black with [a = 1/255]. *)
Theorem C2_default_alpha (fillStyle : string -> string) :
  ColorValue.new fillStyle (Prim JsUndefined) = Ok (ColorValue.mk 0 0 0 one255)
  /\ ColorValue.new fillStyle (Prim JsNull) = Ok (ColorValue.mk 0 0 0 one255)
  /\ (one255 =? 1)%float = false
  /\ ColorValue.CSSRGB (ColorValue.mk 0 0 0 one255) = "rgba(0, 0, 0, 0.004)".
Proof. evaluate. Qed.

(** C3. The claim holds that the alpha of a record with [r], [g], [b] is
    divided by 255 and clamped, and that a missing or invalid alpha gives
    [a = 1].  The code clamps first and divides afterwards: the alpha 255, a
    missing alpha and an invalid alpha all give [a = 1/255].  The colour
    channels are divided by 255 and clamped, as claimed. *)
Theorem C3_record_alpha (fillStyle : string -> string) :
  ColorValue.new fillStyle
      (ObjectOf {[ "r" := JsNumber 255; "g" := JsNumber 0; "b" := JsNumber 0;
                   "a" := JsNumber 255 ]})
    = Ok (ColorValue.mk 1 0 0 one255)
  /\ ColorValue.new fillStyle
      (ObjectOf {[ "r" := JsNumber 255; "g" := JsNumber 0; "b" := JsNumber 0 ]})
    = Ok (ColorValue.mk 1 0 0 one255)
  /\ ColorValue.new fillStyle
      (ObjectOf {[ "r" := JsNumber 255; "g" := JsNumber 0; "b" := JsNumber 0;
                   "a" := JsString "opaque" ]})
    = Ok (ColorValue.mk 1 0 0 one255)
  /\ (one255 =? 1)%float = false.
Proof. evaluate. Qed.

(** C4. The claim holds that ["rgba(255, 0, 0, 0.5)"] encodes to the hex
    string ["#ff0000"] and the CSS-HSL string ["hsla(0, 100%, 50%, 0.500)"].
    The hex string is as claimed.  [CSSHSL] hands the unit-range channels to
    [rgbToHsl], which divides them by 255 once more, and multiplies the
    percentages it gets back by 100: the string is
    ["hsla(0, 10000%, 0%, 0.500)"]. *)
Theorem C4_rgba_string (fillStyle : string -> string) :
  let c := ColorValue.mk 1 0 0 0.5 in
  ColorValue.new fillStyle (Prim (JsString "rgba(255, 0, 0, 0.5)")) = Ok c
  /\ ColorValue.Hex c = "#ff0000"
  /\ ColorValue.CSSHSL c = "hsla(0, 10000%, 0%, 0.500)"
  /\ rgbToHsl 1 0 0 = (0, 100, 0)%float.
Proof. intros c; subst c; evaluate. Qed.

(** C6. The record [{h: 0, s: 100, l: 50}] constructs an instance whose hex
    string is ["#ff0000"]. *)
Theorem C6_hsl_record_red (fillStyle : string -> string) :
  let c := ColorValue.mk 1 0 0 1 in
  ColorValue.new fillStyle
      (ObjectOf {[ "h" := JsNumber 0; "s" := JsNumber 100; "l" := JsNumber 50 ]})
    = Ok c
  /\ ColorValue.Hex c = "#ff0000".
Proof. intros c; subst c; evaluate. Qed.

(** * Clamping

    [clamp01] maps every number other than NaN into the unit interval and
    maps NaN to NaN, so the channels of an instance are in the unit interval
    or NaN, whatever the input. *)

Lemma ltb_leb (x y : float) : (x <? y)%float = true -> (x <=? y)%float = true.
Proof.
  rewrite FloatAxioms.ltb_spec, FloatAxioms.leb_spec. unfold SFltb, SFleb.
  destruct (SFcompare _ _) as [[]|]; congruence.
Qed.

Lemma SFcompare_antisym (x y : spec_float) :
  SFcompare y x = option_map CompOpp (SFcompare x y).
Proof.
  destruct x as [sx|sx| |sx mx ex], y as [sy|sy| |sy my ey];
    try reflexivity; cbn [SFcompare option_map];
    try (destruct sx; reflexivity); try (destruct sy; reflexivity);
    try (destruct sx, sy; reflexivity).
  destruct sx, sy; try reflexivity; cbn [CompOpp];
    rewrite (Z.compare_antisym ex ey);
    destruct (ex ?= ey); cbn [CompOpp]; try reflexivity;
    rewrite (Pos.compare_cont_antisym); cbn [CompOpp];
    now rewrite ?CompOpp_involutive.
Qed.

Lemma is_nan_spec (x : float) : is_nan x = false -> Prim2SF x <> S754_nan.
Proof.
  unfold is_nan. rewrite FloatAxioms.eqb_spec. intros H E. rewrite E in H.
  discriminate H.
Qed.

Lemma SFcompare_total (x y : spec_float) :
  x <> S754_nan -> y <> S754_nan -> SFcompare x y <> None.
Proof. destruct x, y; cbn; try congruence; intros; discriminate. Qed.

Lemma not_ltb_leb (x y : float) :
  is_nan x = false -> is_nan y = false ->
  (x <? y)%float = false -> (y <=? x)%float = true.
Proof.
  intros Hx Hy. apply is_nan_spec in Hx, Hy.
  pose proof (SFcompare_total _ _ Hx Hy) as Ht.
  rewrite FloatAxioms.ltb_spec, FloatAxioms.leb_spec. unfold SFltb, SFleb.
  rewrite (SFcompare_antisym (Prim2SF x) (Prim2SF y)).
  destruct (SFcompare (Prim2SF x) (Prim2SF y)) as [[]|]; cbn; congruence.
Qed.

Lemma clamp01_nan (v : float) : is_nan v = true -> is_nan (clamp01 v) = true.
Proof.
  intros H. unfold clamp01, Num.Math_max. rewrite H, orb_true_r.
  reflexivity.
Qed.

Lemma clamp01_unit (v : float) : is_nan v = false -> inUnit (clamp01 v) = true.
Proof.
  intros H. unfold clamp01, Num.Math_max.
  change (is_nan 0) with false. rewrite H. cbn [orb].
  destruct (0 <? v)%float eqn:L0.
  - unfold Num.Math_min. change (is_nan 1) with false. rewrite H. cbn [orb].
    destruct (1 <? v)%float eqn:L1; [reflexivity|].
    change (get_sign 1) with false.
    assert (Hv : (if (v <? 1)%float then v else v) = v)
      by now destruct (v <? 1)%float.
    cbv iota. rewrite Hv.
    unfold inUnit. rewrite (ltb_leb _ _ L0). cbn [andb].
    now apply not_ltb_leb.
  - destruct (v <? 0)%float; [reflexivity|].
    change (get_sign 0) with false. reflexivity.
Qed.

Lemma clamp01_nanOrUnit (v : float) : nanOrUnit (clamp01 v) = true.
Proof.
  unfold nanOrUnit. destruct (is_nan v) eqn:H.
  - now rewrite (clamp01_nan v H).
  - rewrite (clamp01_unit v H). apply orb_true_r.
Qed.

Lemma setRGBAf_channels (r g b a : float) :
  channelsNanOrUnit (ColorValue.setRGBAf r g b a) = true.
Proof.
  unfold channelsNanOrUnit, ColorValue.setRGBAf.
  cbn [ColorValue.r ColorValue.g ColorValue.b ColorValue.a].
  now rewrite !clamp01_nanOrUnit.
Qed.

Lemma setHSL_channels (h s l : JsPrim) (a : float) :
  channelsNanOrUnit (ColorValue.setHSL h s l a) = true.
Proof.
  unfold ColorValue.setHSL.
  destruct (hslToRgb (ToNumber h) (ToNumber s) (ToNumber l)) as [[r g] b].
  apply setRGBAf_channels.
Qed.

Lemma setHex_channels (hex : string) (c : ColorValue.t) :
  ColorValue.setHex hex = Ok c -> channelsNanOrUnit c = true.
Proof.
  unfold ColorValue.setHex, ColorValue.setRGBA.
  repeat match goal with |- context [if ?t then _ else _] => destruct t end;
    intros H; inversion H; apply setRGBAf_channels.
Qed.

(** Whatever the input, the channels of a constructed instance are in the
    unit interval or NaN. *)
Theorem channels_nan_or_unit (fillStyle : string -> string) (input : JsInput)
    (c : ColorValue.t) :
  ColorValue.new fillStyle input = Ok c -> channelsNanOrUnit c = true.
Proof.
  assert (From : forall i, ColorValue.setFrom fillStyle i = Ok c ->
                           channelsNanOrUnit c = true).
  { intros i. unfold ColorValue.setFrom.
    destruct i as [[| |flag|x|s]|xs|o]; try discriminate.
    - intros H. inversion H. apply setRGBAf_channels.
    - repeat match goal with
             | |- context [if ?t then _ else _] => destruct t
             end.
      + apply setHex_channels.
      + unfold ColorValue.setCSSRGB. destruct (Str.search "rgb" _);
          [|discriminate]. intros H. inversion H. apply setRGBAf_channels.
      + unfold ColorValue.setCSSHSL. destruct (Str.search "hsl" _);
          [|discriminate]. intros H. inversion H. apply setHSL_channels.
      + unfold ColorValue.setNamed.
        destruct (_ || _); [discriminate|apply setHex_channels].
    - destruct (_ && _); [|discriminate].
      intros H. inversion H. apply setRGBAf_channels.
    - repeat match goal with
             | |- context [if ?t then _ else _] => destruct t
             end; try discriminate; intros H; inversion H.
      + apply setRGBAf_channels.
      + apply setHSL_channels. }
  unfold ColorValue.new. apply From.
Qed.

(** The channels of the instance of ["rgb(300, -5, x)"]. *)
Lemma channels_nan_or_unit_witness :
  ColorValue.new sampleCanvas (Prim (JsString "rgb(300, -5, x)"))
  = Ok (ColorValue.mk 1 0 PrimFloat.nan 1)
  /\ channelsNanOrUnit (ColorValue.mk 1 0 PrimFloat.nan 1) = true.
Proof.
  assert (H : ColorValue.new sampleCanvas (Prim (JsString "rgb(300, -5, x)"))
              = Ok (ColorValue.mk 1 0 PrimFloat.nan 1))
    by (vm_compute; reflexivity).
  split; [exact H|exact (channels_nan_or_unit sampleCanvas _ _ H)].
Defined.

(** * Round trip through HSL *)

Lemma allBytes_spec (P : Z -> bool) :
  forallb P allBytes = true -> forall n, isByte n -> P n = true.
Proof.
  intros Hall n [Hlo Hhi].
  rewrite forallb_forall in Hall. apply Hall.
  unfold allBytes. replace n with (Z.of_nat (Z.to_nat n)) by lia.
  apply in_map, in_seq. lia.
Qed.





(** * Dispatch on records *)

Lemma has_dom (o : gmap string JsPrim) (k : string) :
  has o k = bool_decide (k ∈ dom o).
Proof. unfold has. apply bool_decide_ext. symmetry. apply elem_of_dom. Qed.

Lemma has_keys (o : gmap string JsPrim) (k1 k2 k3 : string) :
  has o k1 && has o k2 && has o k3
  = bool_decide (({[ k1; k2; k3 ]} : gset string) ⊆ dom o).
Proof.
  rewrite !has_dom, <- !bool_decide_and. apply bool_decide_ext.
  rewrite !union_subseteq, !singleton_subseteq_l. tauto.
Qed.

(** C7. A record that has the keys [r], [g], [b] is decoded by the RGBA
    decoder, whether or not it has [h], [s], [l] too; a record that has
    neither group of keys is rejected with [UnsupportedFormat]. *)
Theorem C7_record_dispatch (fillStyle : string -> string)
    (o : gmap string JsPrim) :
  (rgbKeys ⊆ dom o ->
     ColorValue.new fillStyle (ObjectOf o)
     = Ok (ColorValue.setRGBA (prop o "r") (prop o "g") (prop o "b")
             (normalizeAlpha (prop o "a"))))
  /\ (~ rgbKeys ⊆ dom o -> hslKeys ⊆ dom o ->
     ColorValue.new fillStyle (ObjectOf o)
     = Ok (ColorValue.setHSL (prop o "h") (prop o "s") (prop o "l")
             (normalizeAlpha (prop o "a"))))
  /\ (~ rgbKeys ⊆ dom o -> ~ hslKeys ⊆ dom o ->
     ColorValue.new fillStyle (ObjectOf o) = Throw UnsupportedFormat).
Proof.
  unfold ColorValue.new, ColorValue.setFrom.
  rewrite !has_keys. fold rgbKeys hslKeys.
  split; [|split].
  - intros Hrgb. rewrite (bool_decide_eq_true_2 _ Hrgb). reflexivity.
  - intros Hrgb Hhsl. rewrite (bool_decide_eq_false_2 _ Hrgb).
    rewrite (bool_decide_eq_true_2 _ Hhsl). reflexivity.
  - intros Hrgb Hhsl. rewrite (bool_decide_eq_false_2 _ Hrgb).
    rewrite (bool_decide_eq_false_2 _ Hhsl). reflexivity.
Qed.

(** The dispatch at the three sample records. *)
Lemma C7_record_dispatch_witness :
  ColorValue.new sampleCanvas (ObjectOf bothRecord)
    = Ok (ColorValue.mk 1 0 0 one255)
  /\ ColorValue.new sampleCanvas (ObjectOf hslRecord)
    = Ok (ColorValue.mk 0 1 0 1)
  /\ ColorValue.new sampleCanvas (ObjectOf otherRecord)
    = Throw UnsupportedFormat.
Proof.
  assert (Hb : rgbKeys ⊆ dom bothRecord) by compute_done.
  assert (Hh1 : ~ rgbKeys ⊆ dom hslRecord) by compute_done.
  assert (Hh2 : hslKeys ⊆ dom hslRecord) by compute_done.
  assert (Ho1 : ~ rgbKeys ⊆ dom otherRecord) by compute_done.
  assert (Ho2 : ~ hslKeys ⊆ dom otherRecord) by compute_done.
  split; [|split].
  - rewrite (proj1 (C7_record_dispatch sampleCanvas bothRecord) Hb).
    vm_compute. reflexivity.
  - rewrite (proj1 (proj2 (C7_record_dispatch sampleCanvas hslRecord)) Hh1 Hh2).
    vm_compute. reflexivity.
  - exact (proj2 (proj2 (C7_record_dispatch sampleCanvas otherRecord)) Ho1 Ho2).
Defined.

(** * The hex decoder *)

Lemma allAscii_spec (P : ascii -> bool) :
  forallb P allAscii = true -> forall c, P c = true.
Proof.
  intros Hall c. rewrite forallb_forall in Hall. apply Hall.
  unfold allAscii. rewrite <- (ascii_nat_embedding c).
  apply in_map, in_seq. pose proof (nat_ascii_bounded c). lia.
Qed.

Lemma pairCheck_all :
  forallb (fun c0 => forallb (pairCheck c0) allAscii) allAscii = true.
Proof. vm_compute. reflexivity. Qed.

Lemma float_eqb_eq (x y : float) : PrimFloat.Leibniz.eqb x y = true -> x = y.
Proof. apply FloatAxioms.Leibniz.eqb_spec. Qed.

Lemma hex_pair (c0 c1 : ascii) (v0 v1 : Z) :
  Str.hexDigit c0 = Some v0 -> Str.hexDigit c1 = Some v1 ->
  Str.parseInt16 (String c0 (String c1 EmptyString)) = Num.of_Z (16 * v0 + v1)
  /\ clamp01 (Num.of_Z (16 * v0 + v1) / 255) = (Num.of_Z (16 * v0 + v1) / 255)%float
  /\ isByte (16 * v0 + v1)
  /\ Ascii.eqb "#" c0 = false /\ Ascii.eqb "#" c1 = false.
Proof.
  intros H0 H1.
  pose proof (allAscii_spec _ (allAscii_spec _ pairCheck_all c0) c1) as H.
  unfold pairCheck in H. rewrite H0, H1 in H.
  repeat (apply andb_prop in H; destruct H as [H ?]).
  repeat match goal with
         | E : negb _ = true |- _ => apply negb_true_iff in E
         | E : PrimFloat.Leibniz.eqb _ _ = true |- _ => apply float_eqb_eq in E
         end.
  unfold isByte. repeat split; try assumption; lia.
Qed.

Lemma removeFirst_skip (c d : ascii) (t : string) :
  Ascii.eqb c d = false ->
  Str.removeFirst c (String d t) = String d (Str.removeFirst c t).
Proof. intros H. cbn [Str.removeFirst]. rewrite H. reflexivity. Qed.

Lemma removeFirst_hit (c : ascii) (t : string) :
  Str.removeFirst c (String c t) = t.
Proof. cbn [Str.removeFirst]. rewrite Ascii.eqb_refl. reflexivity. Qed.

Lemma alpha_255 : clamp01 (255 / 255) = 1%float.
Proof. vm_compute. reflexivity. Qed.

(** C8. The hex decoder, with or without the leading [#]: three digits are
    each doubled, six digits are read in pairs, as bytes between 0 and 255;
    the channels are the bytes divided by 255 and alpha is 1; with any other
    number of characters after the [#] the decoder throws [InvalidHex]. *)
Theorem C8_hex_decoder :
  (forall (hash : bool) (d0 d1 d2 : ascii) (v0 v1 v2 : Z),
      Str.hexDigit d0 = Some v0 -> Str.hexDigit d1 = Some v1 ->
      Str.hexDigit d2 = Some v2 ->
      (isByte (16 * v0 + v0) /\ isByte (16 * v1 + v1) /\ isByte (16 * v2 + v2))
      /\ ColorValue.setHex (hexInput hash (String d0 (String d1 (String d2 EmptyString))))
        = Ok (ColorValue.mk (Num.of_Z (16 * v0 + v0) / 255)
                            (Num.of_Z (16 * v1 + v1) / 255)
                            (Num.of_Z (16 * v2 + v2) / 255) 1))
  /\ (forall (hash : bool) (d0 d1 d2 d3 d4 d5 : ascii) (v0 v1 v2 v3 v4 v5 : Z),
      Str.hexDigit d0 = Some v0 -> Str.hexDigit d1 = Some v1 ->
      Str.hexDigit d2 = Some v2 -> Str.hexDigit d3 = Some v3 ->
      Str.hexDigit d4 = Some v4 -> Str.hexDigit d5 = Some v5 ->
      (isByte (16 * v0 + v1) /\ isByte (16 * v2 + v3) /\ isByte (16 * v4 + v5))
      /\ ColorValue.setHex
          (hexInput hash
             (String d0 (String d1 (String d2 (String d3 (String d4
                (String d5 EmptyString)))))))
        = Ok (ColorValue.mk (Num.of_Z (16 * v0 + v1) / 255)
                            (Num.of_Z (16 * v2 + v3) / 255)
                            (Num.of_Z (16 * v4 + v5) / 255) 1))
  /\ (forall hex : string,
      String.length (Str.removeFirst "#" hex) <> 3%nat ->
      String.length (Str.removeFirst "#" hex) <> 6%nat ->
      ColorValue.setHex hex = Throw InvalidHex).
Proof.
  split; [|split].
  - intros hash d0 d1 d2 v0 v1 v2 H0 H1 H2.
    destruct (hex_pair d0 d0 v0 v0 H0 H0) as (P0 & K0 & B0 & E0 & _).
    destruct (hex_pair d1 d1 v1 v1 H1 H1) as (P1 & K1 & B1 & E1 & _).
    destruct (hex_pair d2 d2 v2 v2 H2 H2) as (P2 & K2 & B2 & E2 & _).
    split; [auto|].
    unfold ColorValue.setHex.
    replace (Str.removeFirst "#" (hexInput hash (String d0 (String d1 (String d2 EmptyString)))))
      with (String d0 (String d1 (String d2 EmptyString))).
    2:{ destruct hash; unfold hexInput.
        - now rewrite removeFirst_hit.
        - now rewrite !removeFirst_skip by assumption. }
    hex_slices. rewrite P0, P1, P2.
    unfold ColorValue.setRGBA, ColorValue.setRGBAf, ToNumber.
    now rewrite K0, K1, K2, alpha_255.
  - intros hash d0 d1 d2 d3 d4 d5 v0 v1 v2 v3 v4 v5 H0 H1 H2 H3 H4 H5.
    destruct (hex_pair d0 d1 v0 v1 H0 H1) as (P0 & K0 & B0 & E0 & E1).
    destruct (hex_pair d2 d3 v2 v3 H2 H3) as (P1 & K1 & B1 & E2 & E3).
    destruct (hex_pair d4 d5 v4 v5 H4 H5) as (P2 & K2 & B2 & E4 & E5).
    split; [auto|].
    unfold ColorValue.setHex.
    replace (Str.removeFirst "#" (hexInput hash
               (String d0 (String d1 (String d2 (String d3 (String d4
                  (String d5 EmptyString))))))))
      with (String d0 (String d1 (String d2 (String d3 (String d4
                  (String d5 EmptyString)))))).
    2:{ destruct hash; unfold hexInput.
        - now rewrite removeFirst_hit.
        - now rewrite !removeFirst_skip by assumption. }
    hex_slices. rewrite P0, P1, P2.
    unfold ColorValue.setRGBA, ColorValue.setRGBAf, ToNumber.
    now rewrite K0, K1, K2, alpha_255.
  - intros hex H3 H6. unfold ColorValue.setHex.
    destruct (Nat.eqb_spec (String.length (Str.removeFirst "#" hex)) 3);
      [contradiction|].
    destruct (Nat.eqb_spec (String.length (Str.removeFirst "#" hex)) 6);
      [contradiction|reflexivity].
Qed.

(** The hex decoder at ["#fa0"], ["FF8000"] and ["#ffff"]. *)
Lemma C8_hex_decoder_witness :
  ColorValue.setHex (hexInput true "fa0")
    = Ok (ColorValue.mk (Num.of_Z (16 * 15 + 15) / 255)
                        (Num.of_Z (16 * 10 + 10) / 255)
                        (Num.of_Z (16 * 0 + 0) / 255) 1)
  /\ ColorValue.setHex (hexInput false "FF8000")
    = Ok (ColorValue.mk (Num.of_Z (16 * 15 + 15) / 255)
                        (Num.of_Z (16 * 8 + 0) / 255)
                        (Num.of_Z (16 * 0 + 0) / 255) 1)
  /\ ColorValue.setHex "#ffff" = Throw InvalidHex.
Proof.
  destruct C8_hex_decoder as (H3 & H6 & Hn).
  split; [|split].
  - exact (proj2 (H3 true "f"%char "a"%char "0"%char 15 10 0
                     eq_refl eq_refl eq_refl)).
  - exact (proj2 (H6 false "F"%char "F"%char "8"%char "0"%char "0"%char
                     "0"%char 15 15 8 0 0 0
                     eq_refl eq_refl eq_refl eq_refl eq_refl eq_refl)).
  - apply Hn; vm_compute; lia.
Defined.

(** * The hex round trip *)

Lemma trimStart_plain (c : ascii) (t : string) :
  plain c = true -> Str.trimStart (String c t) = String c t.
Proof.
  unfold plain. intros H. apply andb_prop in H. destruct H as [H _].
  apply negb_true_iff in H. cbn [Str.trimStart]. now rewrite H.
Qed.

Lemma trimEnd_plain (s : string) : allPlain s = true -> Str.trimEnd s = s.
Proof.
  induction s as [|c t IH]; [reflexivity|].
  cbn [allPlain]. intros H. apply andb_prop in H. destruct H as [Hc Ht].
  cbn [Str.trimEnd]. rewrite (IH Ht).
  destruct t; [|reflexivity].
  unfold plain in Hc. apply andb_prop in Hc. destruct Hc as [Hc _].
  apply negb_true_iff in Hc. now rewrite Hc.
Qed.

Lemma trim_plain (s : string) : allPlain s = true -> Str.trim s = s.
Proof.
  intros H. unfold Str.trim. destruct s as [|c t]; [reflexivity|].
  rewrite trimStart_plain.
  - now apply trimEnd_plain.
  - cbn [allPlain] in H. apply andb_prop in H. tauto.
Qed.

Lemma toLowerCase_plain (s : string) :
  allPlain s = true -> Str.toLowerCase s = s.
Proof.
  induction s as [|c t IH]; [reflexivity|].
  cbn [allPlain Str.toLowerCase]. intros H.
  apply andb_prop in H. destruct H as [Hc Ht]. rewrite (IH Ht).
  unfold plain in Hc. apply andb_prop in Hc. destruct Hc as [_ Hc].
  apply Ascii.eqb_eq in Hc. now rewrite Hc.
Qed.

Lemma byteCheck_all : forallb byteCheck allBytes = true.
Proof. vm_compute. reflexivity. Qed.

(** The hex form of a byte, and what decoding makes of it. *)
Lemma byte_hex (n : Z) :
  isByte n ->
  exists c0 c1 : ascii,
    Str.padStart2 (Str.toString16 (Num.of_Z n)) = String c0 (String c1 EmptyString)
    /\ plain c0 = true /\ plain c1 = true
    /\ Str.parseInt16 (String c0 (String c1 EmptyString)) = Num.of_Z n
    /\ clamp01 (Num.of_Z n / 255) = (Num.of_Z n / 255)%float
    /\ ColorValue.byte (Num.of_Z n / 255) = Num.of_Z n.
Proof.
  intros Hn. pose proof (allBytes_spec _ byteCheck_all n Hn) as H.
  unfold byteCheck in H.
  destruct (Str.padStart2 (Str.toString16 (Num.of_Z n)))
    as [|c0 [|c1 [|? ?]]]; try discriminate H.
  apply andb_prop in H. destruct H as [H Hbyte].
  apply andb_prop in H. destruct H as [H Hval].
  apply andb_prop in H. destruct H as [Hp0 Hp1].
  destruct (Str.hexDigit c0) as [v0|] eqn:E0; [|discriminate].
  destruct (Str.hexDigit c1) as [v1|] eqn:E1; [|discriminate].
  destruct (hex_pair c0 c1 v0 v1 E0 E1) as (P & K & _).
  apply Z.eqb_eq in Hval. rewrite Hval in P, K.
  apply float_eqb_eq in Hbyte.
  exists c0, c1. auto 10.
Qed.

Lemma byte_one : ColorValue.byte 1 = 255%float.
Proof. vm_compute. reflexivity. Qed.

(** C9. Take an instance whose colour channels encode to the bytes
    (r, g, b), whatever its alpha.  Constructing a new instance from its hex
    string gives the channels r/255, g/255, b/255 and alpha 1, which encode
    back to exactly (r, g, b, 255) and to the same hex string. *)
Theorem C9_hex_round_trip (fillStyle : string -> string) (c : ColorValue.t)
    (r g b : Z) :
  isByte r -> isByte g -> isByte b ->
  ColorValue.byte (ColorValue.r c) = Num.of_Z r ->
  ColorValue.byte (ColorValue.g c) = Num.of_Z g ->
  ColorValue.byte (ColorValue.b c) = Num.of_Z b ->
  let c' := ColorValue.mk (Num.of_Z r / 255) (Num.of_Z g / 255)
                          (Num.of_Z b / 255) 1 in
  ColorValue.new fillStyle (Prim (JsString (ColorValue.Hex c))) = Ok c'
  /\ ColorValue.RGBA c' = (Num.of_Z r, Num.of_Z g, Num.of_Z b, 255%float)
  /\ ColorValue.Hex c' = ColorValue.Hex c.
Proof.
  intros Br Bg Bb Hr Hg Hb c'.
  destruct (byte_hex r Br) as (r0 & r1 & Sr & Pr0 & Pr1 & Ir & Kr & Rr).
  destruct (byte_hex g Bg) as (g0 & g1 & Sg & Pg0 & Pg1 & Ig & Kg & Rg).
  destruct (byte_hex b Bb) as (b0 & b1 & Sb & Pb0 & Pb1 & Ib & Kb & Rb).
  assert (HexC : ColorValue.Hex c
                 = String "#" (String r0 (String r1 (String g0 (String g1
                     (String b0 (String b1 EmptyString))))))).
  { unfold ColorValue.Hex. rewrite Hr, Hg, Hb, Sr, Sg, Sb. reflexivity. }
  split; [|split].
  - rewrite HexC. unfold ColorValue.new, ColorValue.setFrom.
    assert (Hp : allPlain (String "#" (String r0 (String r1 (String g0
                   (String g1 (String b0 (String b1 EmptyString))))))) = true).
    { cbn [allPlain]. rewrite Pr0, Pr1, Pg0, Pg1, Pb0, Pb1. reflexivity. }
    rewrite (trim_plain _ Hp), (toLowerCase_plain _ Hp).
    change (Str.startsWith (String "#" ?t) "#") with true. cbv iota.
    unfold ColorValue.setHex. rewrite removeFirst_hit.
    hex_slices. rewrite Ir, Ig, Ib.
    unfold ColorValue.setRGBA, ColorValue.setRGBAf, ToNumber.
    now rewrite Kr, Kg, Kb, alpha_255.
  - unfold ColorValue.RGBA, c'. cbn [ColorValue.r ColorValue.g ColorValue.b ColorValue.a].
    now rewrite Rr, Rg, Rb, byte_one.
  - unfold ColorValue.Hex at 1, c'.
    cbn [ColorValue.r ColorValue.g ColorValue.b ColorValue.a].
    rewrite Rr, Rg, Rb. unfold ColorValue.Hex. now rewrite Hr, Hg, Hb.
Qed.

(** The round trip at an instance that encodes to (255, 128, 0). *)
Lemma C9_hex_round_trip_witness :
  let c := ColorValue.mk 1 0.5 0 0.5 in
  let c' := ColorValue.mk (Num.of_Z 255 / 255) (Num.of_Z 128 / 255)
                          (Num.of_Z 0 / 255) 1 in
  ColorValue.Hex c = "#ff8000"
  /\ ColorValue.new sampleCanvas (Prim (JsString (ColorValue.Hex c))) = Ok c'
  /\ ColorValue.RGBA c' = (Num.of_Z 255, Num.of_Z 128, Num.of_Z 0, 255%float)
  /\ ColorValue.Hex c' = ColorValue.Hex c.
Proof.
  intros c c'. split; [vm_compute; reflexivity|].
  apply (C9_hex_round_trip sampleCanvas c 255 128 0);
    first [ unfold isByte; lia | vm_compute; reflexivity ].
Defined.

(** * The CSS-RGB decoder *)

Lemma append_cons (c : ascii) (s t : string) :
  String c s ++ t = String c (s ++ t).
Proof. reflexivity. Qed.

Lemma prefix_nil (s : string) : String.prefix EmptyString s = true.
Proof. destruct s; reflexivity. Qed.

Lemma prefix_cons (c d : ascii) (p s : string) :
  String.prefix (String c p) (String d s)
  = if Ascii.eqb c d then String.prefix p s else false.
Proof.
  cbn [String.prefix]. destruct (ascii_dec c d) as [->|Hne].
  - now rewrite Ascii.eqb_refl.
  - apply Ascii.eqb_neq in Hne. now rewrite Hne.
Qed.

Lemma prefix_app (p rest : string) : String.prefix p (p ++ rest) = true.
Proof.
  induction p as [|c p IH]; [apply prefix_nil|].
  rewrite append_cons, prefix_cons, Ascii.eqb_refl. exact IH.
Qed.

Lemma drop_app (p rest : string) : Str.drop (String.length p) (p ++ rest) = rest.
Proof.
  induction p as [|c p IH]; [destruct rest; reflexivity|].
  rewrite append_cons. cbn [String.length Str.drop]. exact IH.
Qed.

Lemma prefix_drop (p s : string) :
  String.prefix p s = true -> s = p ++ Str.drop (String.length p) s.
Proof.
  revert s. induction p as [|c p IH]; intros s H.
  - destruct s; reflexivity.
  - destruct s as [|d s]; [discriminate H|].
    rewrite prefix_cons in H.
    destruct (Ascii.eqb_spec c d) as [->|]; [|discriminate H].
    rewrite append_cons. cbn [String.length Str.drop]. f_equal. now apply IH.
Qed.

Lemma spanArgs_app (args post : string) :
  noParen args = true ->
  Str.spanArgs (args ++ String ")" post) = (args, String ")" post).
Proof.
  induction args as [|c t IH]; intros H.
  - reflexivity.
  - cbn [noParen] in H. apply andb_prop in H. destruct H as [Hc Ht].
    apply negb_true_iff in Hc.
    rewrite append_cons. cbn [Str.spanArgs]. now rewrite Hc, (IH Ht).
Qed.

Lemma spanArgs_spec (s : string) :
  s = fst (Str.spanArgs s) ++ snd (Str.spanArgs s)
  /\ noParen (fst (Str.spanArgs s)) = true
  /\ (snd (Str.spanArgs s) = EmptyString
      \/ exists post, snd (Str.spanArgs s) = String ")" post).
Proof.
  induction s as [|c t (IH1 & IH2 & IH3)].
  - cbn. auto.
  - cbn [Str.spanArgs]. destruct (Ascii.eqb_spec c ")") as [->|Hne].
    + cbn. eauto.
    + destruct (Str.spanArgs t) as [b r]. cbn [fst snd] in *.
      rewrite append_cons. cbn [noParen].
      apply Ascii.eqb_neq in Hne. rewrite Hne.
      repeat split; [now f_equal | exact IH2 | exact IH3].
Qed.

Lemma matchArgs_complete (args post : string) :
  args <> EmptyString -> noParen args = true ->
  Str.matchArgs (args ++ String ")" post) = Some args.
Proof.
  intros Hne Hnp. unfold Str.matchArgs. rewrite (spanArgs_app _ _ Hnp).
  destruct args; [contradiction|reflexivity].
Qed.

Lemma matchArgs_sound (s args : string) :
  Str.matchArgs s = Some args ->
  exists post, s = args ++ String ")" post
               /\ args <> EmptyString /\ noParen args = true.
Proof.
  unfold Str.matchArgs. intros H.
  destruct (spanArgs_spec s) as (E & Hnp & Hr).
  destruct (Str.spanArgs s) as [b r]. cbn [fst snd] in *.
  destruct b as [|c b]; [discriminate H|].
  destruct r as [|d r]; [discriminate H|].
  injection H as <-.
  destruct Hr as [Hr|[post Hr]]; [discriminate Hr|].
  exists post. rewrite <- Hr. repeat split; [exact E|discriminate|exact Hnp].
Qed.

Lemma matchHere_complete (name opt args post : string) :
  opt = EmptyString \/ opt = "a" -> args <> EmptyString -> noParen args = true ->
  Str.matchHere name (name ++ opt ++ String "(" (args ++ String ")" post))
  = Some args.
Proof.
  intros Hopt Hne Hnp. unfold Str.matchHere.
  rewrite prefix_app, drop_app.
  destruct Hopt as [-> | ->]; cbn; now apply matchArgs_complete.
Qed.

Lemma matchHere_sound (name s args : string) :
  Str.matchHere name s = Some args ->
  exists opt post,
    s = name ++ opt ++ String "(" (args ++ String ")" post)
    /\ (opt = EmptyString \/ opt = "a") /\ args <> EmptyString /\ noParen args = true.
Proof.
  unfold Str.matchHere. intros H.
  destruct (String.prefix name s) eqn:Hp; [|discriminate H].
  apply prefix_drop in Hp. revert H Hp.
  generalize (Str.drop (String.length name) s). intros rest H ->.
  destruct rest as [|c u]; [discriminate H|].
  destruct (Ascii.eqb_spec c "(") as [->|_].
  - apply matchArgs_sound in H. destruct H as (post & -> & Hne & Hnp).
    exists EmptyString, post. auto.
  - destruct (Ascii.eqb_spec c "a") as [->|_]; [|discriminate H].
    destruct u as [|c' v]; [discriminate H|].
    destruct (Ascii.eqb_spec c' "(") as [->|_]; [|discriminate H].
    apply matchArgs_sound in H. destruct H as (post & -> & Hne & Hnp).
    exists "a", post. auto.
Qed.

Lemma search_complete (name s : string) :
  Matches name s -> exists args, Str.search name s = Some args.
Proof.
  intros (pre & opt & args & post & -> & Hopt & Hne & Hnp).
  induction pre as [|c pre IH].
  - change (EmptyString ++ ?t) with t.
    pose proof (matchHere_complete name opt args post Hopt Hne Hnp) as H.
    exists args.
    destruct (name ++ opt ++ String "(" (args ++ String ")" post));
      cbn [Str.search]; now rewrite H.
  - rewrite append_cons. cbn [Str.search].
    destruct (Str.matchHere name _); [eauto|exact IH].
Qed.

Lemma search_sound (name s args : string) :
  Str.search name s = Some args -> Matches name s.
Proof.
  assert (Here : forall u g, Str.matchHere name u = Some g -> Matches name u).
  { intros u g Hm. apply matchHere_sound in Hm.
    destruct Hm as (opt & post & E & Hrest). exists EmptyString, opt, g, post. auto. }
  induction s as [|c t IH]; cbn [Str.search]; intros H.
  - destruct (Str.matchHere name EmptyString) eqn:Hm; [eauto|discriminate H].
  - destruct (Str.matchHere name (String c t)) eqn:Hm; [eauto|].
    destruct (IH H) as (pre & opt & g & post & -> & Hrest).
    exists (String c pre), opt, g, post. auto.
Qed.

Lemma search_None (name s : string) :
  Str.search name s = None <-> ~ Matches name s.
Proof.
  split.
  - intros H Hm. apply search_complete in Hm. destruct Hm as [args Hm].
    congruence.
  - intros H. destruct (Str.search name s) eqn:E; [|reflexivity].
    exfalso. apply H. eapply search_sound. exact E.
Qed.




(** * Further properties

    ** Integers as numbers *)

Lemma digits2_iter_xO (p k : positive) :
  Z.pos (digits2_pos (Pos.iter xO p k)) = Z.pos (digits2_pos p) + Z.pos k.
Proof.
  induction k as [|k IH] using Pos.peano_ind.
  - cbn [Pos.iter digits2_pos]. lia.
  - rewrite Pos.iter_succ. cbn [digits2_pos]. lia.
Qed.

Lemma iter_xO_value (p k : positive) :
  Z.pos (Pos.iter xO p k) = Z.pos p * 2 ^ Z.pos k.
Proof.
  induction k as [|k IH] using Pos.peano_ind.
  - cbn [Pos.iter]. lia.
  - rewrite Pos.iter_succ, Pos2Z.inj_succ, Z.pow_succ_r by lia.
    rewrite Pos2Z.inj_xO, IH. lia.
Qed.

Lemma binary_round_aux_exact (s : bool) (m : positive) (e : Z) :
  Z.pos (digits2_pos m) = 53 -> -1074 <= e <= 971 ->
  binary_round_aux prec emax s (Z.pos m) e loc_Exact = S754_finite s m e.
Proof.
  intros Hd He. unfold binary_round_aux, shr_fexp, Zdigits2, fexp, SpecFloat.emin.
  rewrite Hd.
  replace (Z.max (53 + e - prec) (3 - emax - prec) - e) with 0
    by (unfold prec, emax; lia).
  cbn [shr shr_record_of_loc shr_m loc_of_shr_record round_nearest_even].
  rewrite Hd.
  replace (Z.max (53 + e - prec) (3 - emax - prec) - e) with 0
    by (unfold prec, emax; lia).
  cbn [shr shr_record_of_loc shr_m].
  replace (e <=? emax - prec) with true; [reflexivity|].
  symmetry. apply Z.leb_le. unfold prec, emax. lia.
Qed.

(** The representation of a non-zero integer below [2^53]. *)
Lemma binary_round_integer (s : bool) (p : positive) :
  Z.pos p < 2 ^ 53 ->
  exists m : positive,
    binary_round prec emax s p 0
    = S754_finite s m (Z.pos (digits2_pos p) - 53)
    /\ Z.pos m = Z.pos p * 2 ^ (53 - Z.pos (digits2_pos p))
    /\ Z.pos (digits2_pos m) = 53.
Proof.
  intros Hp.
  assert (Hd : Z.pos (digits2_pos p) <= 53).
  { clear -Hp.
    assert (H : forall q, 2 ^ (Z.pos (digits2_pos q) - 1) <= Z.pos q).
    { induction q as [q IH|q IH|]; cbn [digits2_pos]; [| |cbn; lia];
        rewrite Pos2Z.inj_succ;
        replace (Z.succ (Z.pos (digits2_pos q)) - 1)
          with (Z.succ (Z.pos (digits2_pos q) - 1)) by lia;
        rewrite Z.pow_succ_r by lia; lia. }
    specialize (H p).
    destruct (Z.le_gt_cases (Z.pos (digits2_pos p)) 53) as [|Hgt]; [assumption|].
    assert (2 ^ 53 <= 2 ^ (Z.pos (digits2_pos p) - 1))
      by (apply Z.pow_le_mono_r; lia).
    lia. }
  unfold binary_round, shl_align, fexp, SpecFloat.emin.
  replace (Z.max (Z.pos (digits2_pos p) + 0 - prec) (3 - emax - prec) - 0)
    with (Z.pos (digits2_pos p) - 53) by (unfold prec, emax; lia).
  destruct (Z.pos (digits2_pos p) - 53) as [|k|k] eqn:Ek; [|lia|].
  - exists p. rewrite binary_round_aux_exact by lia.
    replace (53 - Z.pos (digits2_pos p)) with 0 by lia.
    repeat split; lia.
  - exists (Pos.iter xO p k).
    replace (Z.max (Z.pos (digits2_pos p) + 0 - prec) (3 - emax - prec))
      with (Z.neg k) by (unfold prec, emax; lia).
    rewrite binary_round_aux_exact;
      rewrite ?digits2_iter_xO; try lia.
    rewrite iter_xO_value.
    replace (53 - Z.pos (digits2_pos p)) with (Z.pos k) by lia.
    repeat split; lia.
Qed.

Lemma Prim2SF_of_Z (n : Z) :
  n <> 0 -> Z.abs n < 2 ^ 53 ->
  exists (m : positive) (e : Z),
    Prim2SF (Num.of_Z n) = S754_finite (n <? 0) m e
    /\ -52 <= e <= 0 /\ Z.pos m = Z.abs n * 2 ^ (- e)
    /\ Z.pos (digits2_pos m) = 53.
Proof.
  intros Hn Hb. unfold Num.of_Z.
  destruct n as [|p|p]; [contradiction| |]; cbn [binary_normalize Z.abs] in *.
  - destruct (binary_round_integer false p Hb) as (m & E & Hm & Hd).
    exists m, (Z.pos (digits2_pos p) - 53).
    rewrite E, Prim2SF_SF2Prim.
    + assert (53 - Z.pos (digits2_pos p) >= 0).
      { destruct (Z.le_gt_cases 0 (53 - Z.pos (digits2_pos p))); [lia|].
        rewrite Z.pow_neg_r in Hm by lia. lia. }
      replace (- (Z.pos (digits2_pos p) - 53)) with (53 - Z.pos (digits2_pos p)) by lia.
      repeat split; try assumption; lia.
    + cbn [valid_binary]. unfold bounded, canonical_mantissa, fexp, SpecFloat.emin.
      rewrite Hd.
      assert (53 - Z.pos (digits2_pos p) >= 0).
      { destruct (Z.le_gt_cases 0 (53 - Z.pos (digits2_pos p))); [lia|].
        rewrite Z.pow_neg_r in Hm by lia. lia. }
      apply andb_true_intro. split; [apply Z.eqb_eq|apply Z.leb_le];
        unfold prec, emax; lia.
  - destruct (binary_round_integer true p Hb) as (m & E & Hm & Hd).
    exists m, (Z.pos (digits2_pos p) - 53).
    assert (53 - Z.pos (digits2_pos p) >= 0).
    { destruct (Z.le_gt_cases 0 (53 - Z.pos (digits2_pos p))); [lia|].
      rewrite Z.pow_neg_r in Hm by lia. lia. }
    rewrite E, Prim2SF_SF2Prim.
    + replace (- (Z.pos (digits2_pos p) - 53)) with (53 - Z.pos (digits2_pos p)) by lia.
      repeat split; try assumption; lia.
    + cbn [valid_binary]. unfold bounded, canonical_mantissa, fexp, SpecFloat.emin.
      rewrite Hd.
      apply andb_true_intro. split; [apply Z.eqb_eq|apply Z.leb_le];
        unfold prec, emax; lia.
Qed.

Lemma truncate_of_Z (n : Z) : Z.abs n < 2 ^ 53 -> Num.truncate (Num.of_Z n) = n.
Proof.
  intros Hb. destruct (Z.eq_dec n 0) as [->|Hn]; [reflexivity|].
  destruct (Prim2SF_of_Z n Hn Hb) as (m & e & E & He & Hm & _).
  assert (Hs : Z.shiftl (Z.pos m) e = Z.abs n).
  { rewrite Hm. replace e with (- (- e)) at 2 by lia.
    rewrite Z.shiftl_opp_r, Z.shiftr_div_pow2, Z.div_mul by lia. reflexivity. }
  unfold Num.truncate. rewrite E. cbv zeta. rewrite Hs.
  destruct (Z.ltb_spec n 0); lia.
Qed.

Lemma ToInt32_of_Z (n : Z) :
  - 2 ^ 31 <= n < 2 ^ 31 -> Num.ToInt32 (Num.of_Z n) = n.
Proof.
  intros Hn. unfold Num.ToInt32. rewrite truncate_of_Z by lia.
  unfold Num.int32_wrap.
  destruct (Z.leb_spec (2 ^ 31) (n mod 2 ^ 32)) as [H|H].
  - assert (n < 0).
    { destruct (Z.lt_ge_cases n 0); [assumption|].
      rewrite Z.mod_small in H by lia. lia. }
    replace n with (n + 2 ^ 32 - 1 * 2 ^ 32) at 1 by lia.
    rewrite Zminus_mod, Z_mod_mult, Z.sub_0_r, Z.mod_mod by lia.
    rewrite Z.mod_small by lia. lia.
  - destruct (Z.lt_ge_cases n 0).
    + replace n with (n + 2 ^ 32 - 1 * 2 ^ 32) in H at 1 by lia.
      rewrite Zminus_mod, Z_mod_mult, Z.sub_0_r, Z.mod_mod in H by lia.
      rewrite Z.mod_small in H by lia. lia.
    + apply Z.mod_small. lia.
Qed.

(** The three bytes of an integer, put back together. *)
Lemma pack_bytes (v : Z) :
  Z.lor (Z.lor (Z.shiftl (Z.land (Z.shiftr v 16) 255) 16)
               (Z.shiftl (Z.land (Z.shiftr v 8) 255) 8))
        (Z.land v 255)
  = v mod 2 ^ 24.
Proof.
  change 255 with (Z.ones 8). rewrite <- (Z.land_ones v 24) by lia.
  apply Z.bits_inj'. intros i Hi.
  rewrite !Z.lor_spec, !Z.land_spec, !Z.shiftl_spec by lia.
  rewrite (Z.testbit_ones_nonneg 8 i), (Z.testbit_ones_nonneg 24 i) by lia.
  destruct (Z.ltb_spec i 8).
  - rewrite (Z.testbit_neg_r _ (i - 16)), (Z.testbit_neg_r _ (i - 8)) by lia.
    replace (i <? 24) with true by (symmetry; apply Z.ltb_lt; lia).
    now rewrite andb_true_r.
  - rewrite andb_false_r, orb_false_r.
    destruct (Z.ltb_spec i 16).
    + rewrite (Z.testbit_neg_r _ (i - 16)) by lia.
      rewrite Z.land_spec, Z.shiftr_spec, (Z.testbit_ones_nonneg 8) by lia.
      replace (i - 8 + 8) with i by lia.
      replace (i - 8 <? 8) with true by (symmetry; apply Z.ltb_lt; lia).
      replace (i <? 24) with true by (symmetry; apply Z.ltb_lt; lia).
      reflexivity.
    + rewrite !Z.land_spec, !Z.shiftr_spec, !(Z.testbit_ones_nonneg 8) by lia.
      replace (i - 16 + 16) with i by lia.
      replace (i - 8 <? 8) with false by (symmetry; apply Z.ltb_ge; lia).
      rewrite andb_false_r, orb_false_r.
      destruct (Z.ltb_spec i 24).
      * replace (i - 16 <? 8) with true by (symmetry; apply Z.ltb_lt; lia).
        reflexivity.
      * replace (i - 16 <? 8) with false by (symmetry; apply Z.ltb_ge; lia).
        reflexivity.
Qed.

Lemma land_255_byte (v : Z) : isByte (Z.land v 255).
Proof.
  change 255 with (Z.ones 8). rewrite Z.land_ones by lia.
  pose proof (Z.mod_pos_bound v (2 ^ 8)). unfold isByte. lia.
Qed.

Lemma int32_wrap_small (k : Z) : 0 <= k < 2 ^ 31 -> Num.int32_wrap k = k.
Proof.
  intros Hk. unfold Num.int32_wrap. rewrite Z.mod_small by lia.
  destruct (Z.leb_spec (2 ^ 31) k); lia.
Qed.

Lemma setInteger_bytes (value : float) :
  let v := Num.ToInt32 value in
  ColorValue.setInteger value
  = ColorValue.mk (Num.of_Z (Z.land (Z.shiftr v 16) 255) / 255)
                  (Num.of_Z (Z.land (Z.shiftr v 8) 255) / 255)
                  (Num.of_Z (Z.land v 255) / 255) 1.
Proof.
  intros v. unfold ColorValue.setInteger, ColorValue.setRGBAf. fold v.
  destruct (byte_hex _ (land_255_byte (Z.shiftr v 16))) as (? & ? & _ & _ & _ & _ & K2 & _).
  destruct (byte_hex _ (land_255_byte (Z.shiftr v 8))) as (? & ? & _ & _ & _ & _ & K1 & _).
  destruct (byte_hex _ (land_255_byte v)) as (? & ? & _ & _ & _ & _ & K0 & _).
  rewrite K2, K1, K0. reflexivity.
Qed.

Lemma Integer_setInteger (value : float) :
  ColorValue.Integer (ColorValue.setInteger value)
  = Num.of_Z (Num.ToInt32 value mod 2 ^ 24).
Proof.
  rewrite setInteger_bytes. cbv zeta.
  set (v := Num.ToInt32 value).
  pose proof (land_255_byte (Z.shiftr v 16)) as B2.
  pose proof (land_255_byte (Z.shiftr v 8)) as B1.
  pose proof (land_255_byte v) as B0.
  destruct (byte_hex _ B2) as (? & ? & _ & _ & _ & _ & _ & R2).
  destruct (byte_hex _ B1) as (? & ? & _ & _ & _ & _ & _ & R1).
  destruct (byte_hex _ B0) as (? & ? & _ & _ & _ & _ & _ & R0).
  unfold ColorValue.Integer.
  cbn [ColorValue.r ColorValue.g ColorValue.b ColorValue.a].
  rewrite R2, R1, R0.
  unfold isByte in *.
  rewrite !ToInt32_of_Z by lia.
  rewrite !int32_wrap_small by (rewrite Z.shiftl_mul_pow2 by lia; lia).
  now rewrite pack_bytes.
Qed.

(** Every number constructs.  Its colour bytes are the three low bytes of
    [ToInt32] of the number, alpha is 1, and [Integer] gives back the low 24
    bits: what lies above them, such as an alpha byte, is dropped. *)
Theorem number_input (fillStyle : string -> string) (value : float) :
  let v := Num.ToInt32 value in
  exists c,
    ColorValue.new fillStyle (Prim (JsNumber value)) = Ok c
    /\ ColorValue.RGBA c
       = (Num.of_Z (v / 65536 mod 256), Num.of_Z (v / 256 mod 256),
          Num.of_Z (v mod 256), 255%float)
    /\ ColorValue.a c = 1%float
    /\ ColorValue.Integer c = Num.of_Z (v mod 2 ^ 24).
Proof.
  intros v. exists (ColorValue.setInteger value).
  split; [reflexivity|]. split; [|split].
  - rewrite setInteger_bytes. cbv zeta. fold v.
    pose proof (land_255_byte (Z.shiftr v 16)) as B2.
    pose proof (land_255_byte (Z.shiftr v 8)) as B1.
    pose proof (land_255_byte v) as B0.
    destruct (byte_hex _ B2) as (? & ? & _ & _ & _ & _ & _ & R2).
    destruct (byte_hex _ B1) as (? & ? & _ & _ & _ & _ & _ & R1).
    destruct (byte_hex _ B0) as (? & ? & _ & _ & _ & _ & _ & R0).
    unfold ColorValue.RGBA.
    cbn [ColorValue.r ColorValue.g ColorValue.b ColorValue.a].
    rewrite R2, R1, R0, byte_one.
    change 255 with (Z.ones 8). rewrite !Z.land_ones, !Z.shiftr_div_pow2 by lia.
    reflexivity.
  - rewrite setInteger_bytes. reflexivity.
  - apply Integer_setInteger.
Qed.

(** A 24-bit integer [n] constructs the instance of its three bytes with
    alpha 1, and [RGBA] and [Integer] give the bytes and [n] back. *)
Theorem new_integer (fillStyle : string -> string) (n : Z) :
  0 <= n < 2 ^ 24 ->
  let c := ColorValue.mk (Num.of_Z (n / 65536) / 255)
                         (Num.of_Z (n / 256 mod 256) / 255)
                         (Num.of_Z (n mod 256) / 255) 1 in
  ColorValue.new fillStyle (Prim (JsNumber (Num.of_Z n))) = Ok c
  /\ ColorValue.RGBA c
     = (Num.of_Z (n / 65536), Num.of_Z (n / 256 mod 256),
        Num.of_Z (n mod 256), 255%float)
  /\ ColorValue.Integer c = Num.of_Z n.
Proof.
  intros Hn c.
  assert (Hset : ColorValue.setInteger (Num.of_Z n) = c).
  { rewrite setInteger_bytes. cbv zeta. rewrite ToInt32_of_Z by lia.
    change 255 with (Z.ones 8). rewrite !Z.land_ones, !Z.shiftr_div_pow2 by lia.
    change (2 ^ 16) with 65536. change (2 ^ 8) with 256.
    rewrite (Z.mod_small (n / 65536)); [reflexivity|].
    split; [apply Z.div_pos; lia|apply Z.div_lt_upper_bound; lia]. }
  split; [|split].
  - unfold ColorValue.new, ColorValue.setFrom. now rewrite Hset.
  - assert (B2 : isByte (n / 65536)).
    { split; [apply Z.div_pos; lia|].
      assert (n / 65536 < 256) by (apply Z.div_lt_upper_bound; lia). lia. }
    assert (B1 : isByte (n / 256 mod 256))
      by (pose proof (Z.mod_pos_bound (n / 256) 256); unfold isByte; lia).
    assert (B0 : isByte (n mod 256))
      by (pose proof (Z.mod_pos_bound n 256); unfold isByte; lia).
    destruct (byte_hex _ B2) as (? & ? & _ & _ & _ & _ & _ & R2).
    destruct (byte_hex _ B1) as (? & ? & _ & _ & _ & _ & _ & R1).
    destruct (byte_hex _ B0) as (? & ? & _ & _ & _ & _ & _ & R0).
    unfold ColorValue.RGBA, c.
    cbn [ColorValue.r ColorValue.g ColorValue.b ColorValue.a].
    now rewrite R2, R1, R0, byte_one.
  - rewrite <- Hset, Integer_setInteger, ToInt32_of_Z by lia.
    now rewrite Z.mod_small by lia.
Qed.

(** The integer round trip at 0xff8000. *)
Lemma new_integer_witness :
  let c := ColorValue.mk (Num.of_Z (16744448 / 65536) / 255)
                         (Num.of_Z (16744448 / 256 mod 256) / 255)
                         (Num.of_Z (16744448 mod 256) / 255) 1 in
  ColorValue.new sampleCanvas (Prim (JsNumber (Num.of_Z 16744448))) = Ok c
  /\ ColorValue.RGBA c
     = (Num.of_Z (16744448 / 65536), Num.of_Z (16744448 / 256 mod 256),
        Num.of_Z (16744448 mod 256), 255%float)
  /\ ColorValue.Integer c = Num.of_Z 16744448.
Proof. apply (new_integer sampleCanvas 16744448). lia. Defined.

Lemma ToInt32_not_finite (x : float) :
  is_nan x || is_infinity x = true -> Num.ToInt32 x = 0.
Proof.
  intros H. unfold Num.ToInt32, Num.truncate, Prim2SF.
  destruct (is_nan x); [reflexivity|]. cbn [orb] in H. rewrite H.
  destruct (is_zero x); reflexivity.
Qed.

(** NaN and the infinities, given as a number, construct opaque black. *)
Theorem new_not_finite (fillStyle : string -> string) (x : float) :
  is_nan x || is_infinity x = true ->
  ColorValue.new fillStyle (Prim (JsNumber x)) = Ok (ColorValue.mk 0 0 0 1).
Proof.
  intros H. unfold ColorValue.new, ColorValue.setFrom.
  rewrite setInteger_bytes. cbv zeta. rewrite (ToInt32_not_finite x H).
  vm_compute. reflexivity.
Qed.

(** Opaque black from [Infinity]. *)
Lemma new_not_finite_witness :
  ColorValue.new sampleCanvas (Prim (JsNumber PrimFloat.infinity))
  = Ok (ColorValue.mk 0 0 0 1).
Proof. apply (new_not_finite sampleCanvas PrimFloat.infinity). reflexivity. Defined.

(** ** Clamping, case by case *)

Lemma ltb_not_nan (x y : float) :
  (x <? y)%float = true -> is_nan x = false /\ is_nan y = false.
Proof.
  unfold is_nan. rewrite FloatAxioms.ltb_spec, !FloatAxioms.eqb_spec.
  unfold SFltb, SFeqb.
  destruct (Prim2SF x) as [sx|sx| |sx mx ex],
           (Prim2SF y) as [sy|sy| |sy my ey];
    cbn [SFcompare]; try discriminate; intros _;
    rewrite ?Z.compare_refl, ?Pos.compare_cont_refl;
    repeat match goal with s : bool |- _ => destruct s end; auto.
Qed.

Lemma leb_not_nan (x y : float) :
  (x <=? y)%float = true -> is_nan x = false /\ is_nan y = false.
Proof.
  unfold is_nan. rewrite FloatAxioms.leb_spec, !FloatAxioms.eqb_spec.
  unfold SFleb, SFeqb.
  destruct (Prim2SF x) as [sx|sx| |sx mx ex],
           (Prim2SF y) as [sy|sy| |sy my ey];
    cbn [SFcompare]; try discriminate; intros _;
    rewrite ?Z.compare_refl, ?Pos.compare_cont_refl;
    repeat match goal with s : bool |- _ => destruct s end; auto.
Qed.

Lemma leb_not_ltb (x y : float) :
  (x <=? y)%float = true -> (y <? x)%float = false.
Proof.
  rewrite FloatAxioms.ltb_spec, FloatAxioms.leb_spec. unfold SFltb, SFleb.
  rewrite (SFcompare_antisym (Prim2SF x) (Prim2SF y)).
  destruct (SFcompare (Prim2SF x) (Prim2SF y)) as [[]|]; cbn; congruence.
Qed.

Lemma ltb_asym (x y : float) :
  (x <? y)%float = true -> (y <? x)%float = false.
Proof. intros H. now apply leb_not_ltb, ltb_leb. Qed.

Lemma one_ltb_zero_ltb (v : float) :
  (1 <? v)%float = true -> (0 <? v)%float = true.
Proof.
  rewrite !FloatAxioms.ltb_spec.
  change (Prim2SF 1) with (S754_finite false 4503599627370496 (-52)).
  change (Prim2SF 0) with (S754_zero false).
  unfold SFltb. destruct (Prim2SF v) as [s|s| |s m e]; cbn [SFcompare];
    try discriminate; destruct s; try discriminate; reflexivity.
Qed.

Lemma is_nan_eq (v : float) : is_nan v = true -> v = PrimFloat.nan.
Proof.
  intros H. apply Prim2SF_inj. unfold Prim2SF at 1. rewrite H. reflexivity.
Qed.

Lemma clamp01_cases (v : float) :
  (is_nan v = true -> clamp01 v = PrimFloat.nan)
  /\ ((v <=? 0)%float = true -> clamp01 v = 0%float)
  /\ ((0 <? v)%float = true -> (v <=? 1)%float = true -> clamp01 v = v)
  /\ ((1 <? v)%float = true -> clamp01 v = 1%float).
Proof.
  split; [|split; [|split]].
  - intros H. unfold clamp01, Num.Math_max. rewrite H, orb_true_r. reflexivity.
  - intros H. destruct (leb_not_nan _ _ H) as [Hn _].
    unfold clamp01, Num.Math_max. change (is_nan 0) with false.
    rewrite Hn, (leb_not_ltb _ _ H). cbn [orb].
    change (get_sign 0) with false.
    destruct (v <? 0)%float; reflexivity.
  - intros H0 H1. destruct (ltb_not_nan _ _ H0) as [_ Hn].
    unfold clamp01, Num.Math_max. change (is_nan 0) with false.
    rewrite Hn, H0. cbn [orb].
    unfold Num.Math_min. change (is_nan 1) with false.
    rewrite Hn, (leb_not_ltb _ _ H1). cbn [orb].
    change (get_sign 1) with false. now destruct (v <? 1)%float.
  - intros H1. destruct (ltb_not_nan _ _ H1) as [_ Hn].
    unfold clamp01, Num.Math_max. change (is_nan 0) with false.
    rewrite Hn, (one_ltb_zero_ltb _ H1). cbn [orb].
    unfold Num.Math_min. change (is_nan 1) with false.
    now rewrite Hn, H1.
Qed.

Lemma float_cases (v : float) :
  is_nan v = true \/ (v <=? 0)%float = true
  \/ ((0 <? v)%float = true /\ (v <=? 1)%float = true)
  \/ (1 <? v)%float = true.
Proof.
  destruct (is_nan v) eqn:Hn; [now left|right].
  destruct (0 <? v)%float eqn:H0.
  - right. destruct (1 <? v)%float eqn:H1; [now right|left].
    split; [reflexivity|]. now apply not_ltb_leb.
  - left. now apply not_ltb_leb.
Qed.

Lemma clamp01_idempotent (v : float) : clamp01 (clamp01 v) = clamp01 v.
Proof.
  destruct (clamp01_cases v) as (Cn & C0 & Cv & C1).
  destruct (float_cases v) as [H|[H|[[H0 H1]|H]]].
  - rewrite (Cn H). reflexivity.
  - rewrite (C0 H). reflexivity.
  - rewrite (Cv H0 H1). now apply Cv.
  - rewrite (C1 H). reflexivity.
Qed.

(** [clamp01] maps NaN to NaN, everything up to 0 (and [-0]) to [+0],
    everything above 1 to 1, and leaves the numbers in between as they are;
    clamping twice is clamping once. *)
Theorem clamp01_behaviour (v : float) :
  (is_nan v = true -> clamp01 v = PrimFloat.nan)
  /\ ((v <=? 0)%float = true -> clamp01 v = 0%float)
  /\ ((0 <? v)%float = true -> (v <=? 1)%float = true -> clamp01 v = v)
  /\ ((1 <? v)%float = true -> clamp01 v = 1%float)
  /\ clamp01 (clamp01 v) = clamp01 v.
Proof.
  destruct (clamp01_cases v) as (Cn & C0 & Cv & C1).
  auto using clamp01_idempotent.
Qed.

(** The four cases of clamping at NaN, -3, 0.5 and 7. *)
Lemma clamp01_behaviour_witness :
  clamp01 PrimFloat.nan = PrimFloat.nan /\ clamp01 (-3) = 0%float
  /\ clamp01 0.5 = 0.5%float /\ clamp01 7 = 1%float.
Proof.
  split; [|split; [|split]].
  - apply (proj1 (clamp01_behaviour PrimFloat.nan)). reflexivity.
  - apply (proj1 (proj2 (clamp01_behaviour (-3)))). reflexivity.
  - apply (proj1 (proj2 (proj2 (clamp01_behaviour 0.5)))); reflexivity.
  - apply (proj1 (proj2 (proj2 (proj2 (clamp01_behaviour 7))))). reflexivity.
Defined.

Lemma normalizeAlpha_range (alpha : JsPrim) :
  inUnit (normalizeAlpha alpha) = true
  /\ clamp01 (normalizeAlpha alpha) = normalizeAlpha alpha.
Proof.
  unfold normalizeAlpha, Num.isNaN.
  destruct (is_nan (ToNumber _)) eqn:Hn.
  - split; reflexivity.
  - split; [now apply clamp01_unit|apply clamp01_idempotent].
Qed.



(** A record decoded as HSL gets the alpha that [normalizeAlpha] returns,
    unchanged: it lies in the unit interval and is 1 when the record has no
    [a]. *)
Theorem hsl_record_alpha (fillStyle : string -> string) (o : gmap string JsPrim) :
  ~ rgbKeys ⊆ dom o -> hslKeys ⊆ dom o ->
  exists c,
    ColorValue.new fillStyle (ObjectOf o) = Ok c
    /\ ColorValue.a c = normalizeAlpha (prop o "a")
    /\ inUnit (ColorValue.a c) = true
    /\ (o !! "a" = None -> ColorValue.a c = 1%float).
Proof.
  intros Hrgb Hhsl. unfold ColorValue.new, ColorValue.setFrom.
  rewrite !has_keys. fold rgbKeys hslKeys.
  rewrite (bool_decide_eq_false_2 _ Hrgb), (bool_decide_eq_true_2 _ Hhsl).
  unfold ColorValue.setHSL.
  destruct (hslToRgb _ _ _) as [[r g] b].
  eexists. split; [reflexivity|].
  unfold ColorValue.setRGBAf. cbn [ColorValue.a].
  destruct (normalizeAlpha_range (prop o "a")) as [Hu Hc]. rewrite Hc.
  split; [reflexivity|]. split; [exact Hu|].
  intros Ha. unfold prop. rewrite Ha. reflexivity.
Qed.

(** The HSL alpha at a sample record without [a]. *)
Lemma hsl_record_alpha_witness :
  exists c,
    ColorValue.new sampleCanvas (ObjectOf hslRecord) = Ok c
    /\ ColorValue.a c = normalizeAlpha (prop hslRecord "a")
    /\ inUnit (ColorValue.a c) = true
    /\ (hslRecord !! "a" = None -> ColorValue.a c = 1%float).
Proof.
  apply (hsl_record_alpha sampleCanvas hslRecord); compute_done.
Defined.

Lemma new_shape (fillStyle : string -> string) (input : JsInput)
    (c : ColorValue.t) :
  ColorValue.new fillStyle input = Ok c ->
  exists r g b a, c = ColorValue.setRGBAf r g b a.
Proof.
  assert (Hex : forall hex, ColorValue.setHex hex = Ok c ->
                            exists r g b a, c = ColorValue.setRGBAf r g b a).
  { intros hex. unfold ColorValue.setHex, ColorValue.setRGBA.
    repeat match goal with |- context [if ?t then _ else _] => destruct t end;
      intros H; inversion H; eauto. }
  assert (Hsl : forall h s l a,
             exists r g b a', ColorValue.setHSL h s l a
                              = ColorValue.setRGBAf r g b a').
  { intros. unfold ColorValue.setHSL.
    destruct (hslToRgb _ _ _) as [[? ?] ?]. eauto. }
  assert (From : forall i, ColorValue.setFrom fillStyle i = Ok c ->
                           exists r g b a, c = ColorValue.setRGBAf r g b a).
  { intros i. unfold ColorValue.setFrom.
    destruct i as [[| |flag|x|s]|xs|o]; try discriminate.
    - intros H. inversion H. unfold ColorValue.setInteger. eauto.
    - repeat match goal with
             | |- context [if ?t then _ else _] => destruct t
             end.
      + apply Hex.
      + unfold ColorValue.setCSSRGB. destruct (Str.search "rgb" _);
          [|discriminate]. intros H. inversion H. eauto.
      + unfold ColorValue.setCSSHSL. destruct (Str.search "hsl" _);
          [|discriminate]. intros H. inversion H. apply Hsl.
      + unfold ColorValue.setNamed.
        destruct (_ || _); [discriminate|apply Hex].
    - destruct (_ && _); [|discriminate].
      intros H. inversion H. unfold ColorValue.setFloatVector. eauto.
    - repeat match goal with
             | |- context [if ?t then _ else _] => destruct t
             end; try discriminate; intros H; inversion H.
      + unfold ColorValue.setRGBA. eauto.
      + apply Hsl. }
  unfold ColorValue.new. apply From.
Qed.

(** The float vector of any constructed instance constructs the same
    instance again. *)
Theorem FloatVector_round_trip (fillStyle : string -> string)
    (input : JsInput) (c : ColorValue.t) :
  ColorValue.new fillStyle input = Ok c ->
  ColorValue.new fillStyle (ArrayOf (map JsNumber (ColorValue.FloatVector c)))
  = Ok c.
Proof.
  intros H. destruct (new_shape _ _ _ H) as (r & g & b & a & ->).
  unfold ColorValue.new, ColorValue.setFrom, ColorValue.FloatVector.
  cbn. unfold ColorValue.setFloatVector, item. cbn.
  unfold ColorValue.setRGBAf. now rewrite !clamp01_idempotent.
Qed.

(** The float-vector round trip at the instance of ["#fa0"]. *)
Lemma FloatVector_round_trip_witness :
  let c := ColorValue.mk 1 (Num.of_Z 170 / 255) 0 1 in
  ColorValue.new sampleCanvas (Prim (JsString "#fa0")) = Ok c
  /\ ColorValue.new sampleCanvas
       (ArrayOf (map JsNumber (ColorValue.FloatVector c))) = Ok c.
Proof.
  intros c.
  assert (H : ColorValue.new sampleCanvas (Prim (JsString "#fa0")) = Ok c)
    by (vm_compute; reflexivity).
  split; [exact H|exact (FloatVector_round_trip sampleCanvas _ c H)].
Defined.

(** ** White space and letter case *)

Lemma charCheck_all : forallb charCheck allAscii = true.
Proof. vm_compute. reflexivity. Qed.

Lemma lowerChar_space (c : ascii) :
  Str.isWhiteSpace (Str.lowerChar c) = Str.isWhiteSpace c.
Proof.
  pose proof (allAscii_spec _ charCheck_all c) as H. unfold charCheck in H.
  apply andb_prop in H. destruct H as [H _]. now apply Bool.eqb_prop in H.
Qed.

Lemma lowerChar_idempotent (c : ascii) :
  Str.lowerChar (Str.lowerChar c) = Str.lowerChar c.
Proof.
  pose proof (allAscii_spec _ charCheck_all c) as H. unfold charCheck in H.
  apply andb_prop in H. destruct H as [_ H]. now apply Ascii.eqb_eq in H.
Qed.

Lemma toLowerCase_idempotent (s : string) :
  Str.toLowerCase (Str.toLowerCase s) = Str.toLowerCase s.
Proof.
  induction s as [|c t IH]; [reflexivity|].
  cbn [Str.toLowerCase]. now rewrite lowerChar_idempotent, IH.
Qed.

Lemma trimStart_toLowerCase (s : string) :
  Str.trimStart (Str.toLowerCase s) = Str.toLowerCase (Str.trimStart s).
Proof.
  induction s as [|c t IH]; [reflexivity|].
  cbn [Str.toLowerCase Str.trimStart]. rewrite lowerChar_space.
  destruct (Str.isWhiteSpace c); [exact IH|reflexivity].
Qed.

Lemma trimEnd_toLowerCase (s : string) :
  Str.trimEnd (Str.toLowerCase s) = Str.toLowerCase (Str.trimEnd s).
Proof.
  induction s as [|c t IH]; [reflexivity|].
  cbn [Str.toLowerCase Str.trimEnd]. rewrite IH, lowerChar_space.
  destruct (Str.trimEnd t); cbn [Str.toLowerCase];
    [destruct (Str.isWhiteSpace c)|]; reflexivity.
Qed.

Lemma trim_toLowerCase (s : string) :
  Str.trim (Str.toLowerCase s) = Str.toLowerCase (Str.trim s).
Proof.
  unfold Str.trim. now rewrite trimStart_toLowerCase, trimEnd_toLowerCase.
Qed.

Lemma trimStart_clean (s : string) : startsClean (Str.trimStart s) = true.
Proof.
  induction s as [|c t IH]; [reflexivity|].
  cbn [Str.trimStart]. destruct (Str.isWhiteSpace c) eqn:E; [exact IH|].
  cbn [startsClean]. now rewrite E.
Qed.

Lemma trimStart_fix (s : string) :
  startsClean s = true -> Str.trimStart s = s.
Proof.
  destruct s as [|c t]; [reflexivity|]. cbn [startsClean Str.trimStart].
  intros H. apply negb_true_iff in H. now rewrite H.
Qed.

Lemma trimEnd_clean (s : string) :
  startsClean s = true -> startsClean (Str.trimEnd s) = true.
Proof.
  destruct s as [|c t]; [reflexivity|]. cbn [startsClean Str.trimEnd].
  intros H. apply negb_true_iff in H. rewrite H.
  destruct (Str.trimEnd t); cbn [startsClean]; now rewrite H.
Qed.

Lemma trimEnd_idempotent (s : string) :
  Str.trimEnd (Str.trimEnd s) = Str.trimEnd s.
Proof.
  induction s as [|c t IH]; [reflexivity|].
  cbn [Str.trimEnd]. destruct (Str.trimEnd t) as [|d u] eqn:E.
  - destruct (Str.isWhiteSpace c) eqn:W; [reflexivity|].
    cbn [Str.trimEnd]. now rewrite W.
  - cbn [Str.trimEnd]. cbn [Str.trimEnd] in IH.
    destruct (Str.trimEnd u) as [|d' u'] eqn:E'.
    + destruct (Str.isWhiteSpace d); [discriminate IH|].
      now rewrite IH.
    + now rewrite IH.
Qed.

Lemma trim_idempotent (s : string) : Str.trim (Str.trim s) = Str.trim s.
Proof.
  unfold Str.trim.
  rewrite (trimStart_fix (Str.trimEnd (Str.trimStart s)))
    by apply trimEnd_clean, trimStart_clean.
  apply trimEnd_idempotent.
Qed.

(** A string input counts only through its trimmed, lower-case form:
    constructing from that form gives the same result, instance or error, as
    constructing from the string itself. *)
Theorem new_string_normal (fillStyle : string -> string) (s : string) :
  ColorValue.new fillStyle (Prim (JsString (Str.toLowerCase (Str.trim s))))
  = ColorValue.new fillStyle (Prim (JsString s)).
Proof.
  unfold ColorValue.new, ColorValue.setFrom.
  now rewrite trim_toLowerCase, trim_idempotent, toLowerCase_idempotent.
Qed.

(** ** Errors *)




Lemma new_hsl_string (fillStyle : string -> string) (input : string) :
  Str.startsWith (Str.toLowerCase (Str.trim input)) "hsl" = true ->
  ColorValue.new fillStyle (Prim (JsString input))
  = ColorValue.setCSSHSL (Str.toLowerCase (Str.trim input)).
Proof.
  intros H. unfold ColorValue.new, ColorValue.setFrom. rewrite H.
  unfold Str.startsWith in *.
  destruct (Str.toLowerCase (Str.trim input)) as [|c t]; [discriminate H|].
  rewrite prefix_cons in H.
  destruct (Ascii.eqb_spec "h" c) as [<-|]; [|discriminate H].
  reflexivity.
Qed.

(** For a string that starts with ["hsl"] once trimmed and lowered, the
    construction throws [InvalidCSSHSL] exactly when the pattern
    [/hsla?\(([^)]+)\)/] matches nowhere in it, and succeeds otherwise. *)
Theorem css_hsl_failure (fillStyle : string -> string) (input : string) :
  let trimmed := Str.toLowerCase (Str.trim input) in
  Str.startsWith trimmed "hsl" = true ->
  (ColorValue.new fillStyle (Prim (JsString input)) = Throw InvalidCSSHSL
   <-> ~ Matches "hsl" trimmed)
  /\ (Matches "hsl" trimmed ->
      exists c, ColorValue.new fillStyle (Prim (JsString input)) = Ok c).
Proof.
  intros trimmed H. rewrite (new_hsl_string fillStyle input H).
  fold trimmed. unfold ColorValue.setCSSHSL.
  split.
  - rewrite <- search_None.
    destruct (Str.search "hsl" trimmed); split; congruence.
  - intros Hm. apply search_complete in Hm. destruct Hm as [args ->]. eauto.
Qed.

(** The failure condition at a string without parentheses. *)
Lemma css_hsl_failure_witness :
  (ColorValue.new sampleCanvas (Prim (JsString " HSL 1, 2, 3 "))
   = Throw InvalidCSSHSL
   <-> ~ Matches "hsl" (Str.toLowerCase (Str.trim " HSL 1, 2, 3 ")))
  /\ (Matches "hsl" (Str.toLowerCase (Str.trim " HSL 1, 2, 3 ")) ->
      exists c,
        ColorValue.new sampleCanvas (Prim (JsString " HSL 1, 2, 3 ")) = Ok c).
Proof.
  apply (css_hsl_failure sampleCanvas " HSL 1, 2, 3 "). reflexivity.
Defined.

(** ** HSL input *)

Lemma digits2_bound (m : positive) : Z.pos m < 2 ^ Z.pos (digits2_pos m).
Proof.
  induction m as [q IH|q IH|]; cbn [digits2_pos]; [| |cbn; lia];
    rewrite Pos2Z.inj_succ, Z.pow_succ_r by lia; lia.
Qed.

Lemma finite_mantissa_bound (y : float) (s : bool) (m : positive) (e : Z) :
  Prim2SF y = S754_finite s m e -> Z.pos m < 2 ^ 53.
Proof.
  intros E. pose proof (Prim2SF_valid y) as V. rewrite E in V.
  cbn [valid_binary] in V. unfold bounded, canonical_mantissa in V.
  apply andb_prop in V. destruct V as [V _]. apply Z.eqb_eq in V.
  unfold fexp, SpecFloat.emin, prec, emax in V.
  assert (Z.pos (digits2_pos m) <= 53) by lia.
  pose proof (digits2_bound m).
  assert (2 ^ Z.pos (digits2_pos m) <= 2 ^ 53) by (apply Z.pow_le_mono_r; lia).
  lia.
Qed.

Lemma is_nan_Prim2SF (y : float) : Prim2SF y = S754_nan -> is_nan y = true.
Proof.
  intros E. unfold is_nan. rewrite FloatAxioms.eqb_spec, E. reflexivity.
Qed.

Lemma leb_zero_spec (y : float) :
  (y <=? 0)%float = SFleb (Prim2SF y) (S754_zero false).
Proof. now rewrite FloatAxioms.leb_spec. Qed.

Lemma one_ltb_spec (y : float) :
  (1 <? y)%float
  = SFltb (S754_finite false 4503599627370496 (-52)) (Prim2SF y).
Proof. now rewrite FloatAxioms.ltb_spec. Qed.

Lemma clamp01_of_Z (n : Z) :
  Z.abs n < 2 ^ 53 -> zeroOneNaN (clamp01 (Num.of_Z n)).
Proof.
  intros Hb. destruct (clamp01_cases (Num.of_Z n)) as (_ & C0 & _ & C1).
  destruct (Z.eq_dec n 0) as [->|Hn]; [left; reflexivity|].
  destruct (Z.eq_dec n 1) as [->|Hn1]; [right; left; reflexivity|].
  destruct (Prim2SF_of_Z n Hn Hb) as (m & e & E & He & Hm & Hd).
  destruct (Z.ltb_spec n 0) as [Hneg|Hpos].
  - left. apply C0. rewrite leb_zero_spec, E. reflexivity.
  - right. left. apply C1. rewrite one_ltb_spec, E.
    unfold SFltb. cbn [SFcompare].
    assert (-52 < e).
    { pose proof (digits2_bound m) as Hlt. rewrite Hd in Hlt.
      destruct (Z.eq_dec e (-52)) as [->|]; [|lia].
      change (2 ^ (- -52)) with 4503599627370496 in Hm.
      change (2 ^ 53) with 9007199254740992 in Hlt. lia. }
    destruct (Z.compare_spec (-52) e); first [lia|reflexivity].
Qed.

Lemma round_bound (M k : Z) :
  - 2 ^ 53 < M < 2 ^ 53 -> 1 <= k ->
  Z.abs (Z.shiftr (2 * M + 2 ^ k) (1 + k)) < 2 ^ 53.
Proof.
  intros HM Hk. rewrite Z.shiftr_div_pow2 by lia.
  rewrite Z.pow_add_r by lia. change (2 ^ 1) with 2.
  assert (HP : 2 <= 2 ^ k).
  { change 2 with (2 ^ 1) at 1. apply Z.pow_le_mono_r; lia. }
  set (P := 2 ^ k) in *.
  change (2 ^ 53) with 9007199254740992 in *.
  assert ((2 * M + P) / (2 * P) < 9007199254740992)
    by (apply Z.div_lt_upper_bound; lia).
  assert (- 9007199254740992 < (2 * M + P) / (2 * P)).
  { assert (- 9007199254740991 <= (2 * M + P) / (2 * P))
      by (apply Z.div_le_lower_bound; lia). lia. }
  lia.
Qed.

Lemma clamp01_Math_round (y : float) : zeroOneNaN (clamp01 (Num.Math_round y)).
Proof.
  destruct (clamp01_cases y) as (Cn & C0 & _ & C1).
  unfold Num.Math_round.
  destruct (Prim2SF y) as [s|s| |s m e] eqn:E.
  - left. apply C0. rewrite leb_zero_spec, E. reflexivity.
  - destruct s.
    + left. apply C0. rewrite leb_zero_spec, E. reflexivity.
    + right. left. apply C1. rewrite one_ltb_spec, E. reflexivity.
  - right. right. apply Cn. now apply is_nan_Prim2SF.
  - destruct (Z.leb_spec 0 e) as [He|He].
    + destruct s.
      * left. apply C0. rewrite leb_zero_spec, E. reflexivity.
      * right. left. apply C1. rewrite one_ltb_spec, E.
        unfold SFltb. cbn [SFcompare].
        destruct (Z.compare_spec (-52) e); first [lia|reflexivity].
    + cbv zeta.
      set (n := Z.shiftr (2 * (if s then Z.neg m else Z.pos m) + 2 ^ (- e))
                         (1 - e)).
      assert (Hn : Z.abs n < 2 ^ 53).
      { pose proof (finite_mantissa_bound y s m e E). unfold n.
        replace (1 - e) with (1 + - e) by lia.
        apply round_bound; [destruct s; lia|lia]. }
      destruct (n =? 0).
      * left. destruct s; reflexivity.
      * now apply clamp01_of_Z.
Qed.

Lemma setHSL_binary (h s l : JsPrim) (a : float) :
  binaryChannels (ColorValue.setHSL h s l a).
Proof.
  unfold ColorValue.setHSL, hslToRgb.
  repeat match goal with |- context [if ?t then _ else _] => destruct t end;
    unfold binaryChannels, ColorValue.setRGBAf;
    cbn [ColorValue.r ColorValue.g ColorValue.b];
    auto using clamp01_Math_round.
Qed.

(** [hslToRgb] returns bytes and [setHSL] stores them clamped, without
    dividing by 255: every instance built from an HSL record or a CSS
    [hsl()] string has each of r, g, b exactly 0, 1 or NaN. *)
Theorem hsl_input_binary (fillStyle : string -> string) :
  (forall o : gmap string JsPrim,
      ~ rgbKeys ⊆ dom o -> hslKeys ⊆ dom o ->
      exists c, ColorValue.new fillStyle (ObjectOf o) = Ok c
                /\ binaryChannels c)
  /\ (forall (s : string) (c : ColorValue.t),
      Str.startsWith (Str.toLowerCase (Str.trim s)) "hsl" = true ->
      ColorValue.new fillStyle (Prim (JsString s)) = Ok c ->
      binaryChannels c).
Proof.
  split.
  - intros o Hrgb Hhsl. unfold ColorValue.new, ColorValue.setFrom.
    rewrite !has_keys. fold rgbKeys hslKeys.
    rewrite (bool_decide_eq_false_2 _ Hrgb), (bool_decide_eq_true_2 _ Hhsl).
    eexists. split; [reflexivity|apply setHSL_binary].
  - intros s c H. rewrite (new_hsl_string fillStyle s H).
    unfold ColorValue.setCSSHSL. destruct (Str.search _ _); [|discriminate].
    intros Hc. inversion Hc. apply setHSL_binary.
Qed.

(** The channels of a sample HSL record and of ["hsl(210, 50%, 40%)"]. *)
Lemma hsl_input_binary_witness :
  (exists c, ColorValue.new sampleCanvas (ObjectOf hslRecord) = Ok c
             /\ binaryChannels c)
  /\ ColorValue.new sampleCanvas (Prim (JsString "hsl(210, 50%, 40%)"))
     = Ok (ColorValue.mk 1 1 1 1)
  /\ binaryChannels (ColorValue.mk 1 1 1 1).
Proof.
  destruct (hsl_input_binary sampleCanvas) as [Hrec Hstr].
  assert (H : ColorValue.new sampleCanvas (Prim (JsString "hsl(210, 50%, 40%)"))
              = Ok (ColorValue.mk 1 1 1 1)) by (vm_compute; reflexivity).
  split; [|split].
  - apply Hrec; compute_done.
  - exact H.
  - apply (Hstr "hsl(210, 50%, 40%)" _ eq_refl H).
Defined.

Lemma Integer_bytes (c : ColorValue.t) (r g b : Z) :
  isByte r -> isByte g -> isByte b ->
  ColorValue.byte (ColorValue.r c) = Num.of_Z r ->
  ColorValue.byte (ColorValue.g c) = Num.of_Z g ->
  ColorValue.byte (ColorValue.b c) = Num.of_Z b ->
  ColorValue.Integer c = Num.of_Z (65536 * r + 256 * g + b).
Proof.
  unfold isByte. intros Br Bg Bb Hr Hg Hb.
  unfold ColorValue.Integer. rewrite Hr, Hg, Hb.
  rewrite !ToInt32_of_Z by lia.
  rewrite !int32_wrap_small by (rewrite Z.shiftl_mul_pow2 by lia; lia).
  f_equal. set (v := 65536 * r + 256 * g + b).
  assert (E2 : Z.land (Z.shiftr v 16) 255 = r).
  { change 255 with (Z.ones 8). rewrite Z.land_ones, Z.shiftr_div_pow2 by lia.
    change (2 ^ 16) with 65536. change (2 ^ 8) with 256.
    assert (v / 65536 = r) by (symmetry; apply (Z.div_unique v 65536 r (256 * g + b)); lia).
    rewrite H. apply Z.mod_small. lia. }
  assert (E1 : Z.land (Z.shiftr v 8) 255 = g).
  { change 255 with (Z.ones 8). rewrite Z.land_ones, Z.shiftr_div_pow2 by lia.
    change (2 ^ 8) with 256.
    assert (v / 256 = 256 * r + g) by (symmetry; apply (Z.div_unique v 256 (256 * r + g) b); lia).
    rewrite H. symmetry. apply (Z.mod_unique (256 * r + g) 256 r g); lia. }
  assert (E0 : Z.land v 255 = b).
  { change 255 with (Z.ones 8). rewrite Z.land_ones by lia.
    change (2 ^ 8) with 256.
    symmetry. apply (Z.mod_unique v 256 (256 * r + g) b); lia. }
  rewrite <- E2 at 1. rewrite <- E1 at 1. rewrite <- E0 at 1.
  rewrite pack_bytes. apply Z.mod_small.
  change (2 ^ 24) with 16777216. lia.
Qed.

Lemma packed_bytes (r g b : Z) :
  isByte r -> isByte g -> isByte b ->
  let v := 65536 * r + 256 * g + b in
  Z.land (Z.shiftr v 16) 255 = r /\ Z.land (Z.shiftr v 8) 255 = g
  /\ Z.land v 255 = b /\ 0 <= v < 2 ^ 24.
Proof.
  unfold isByte. intros Br Bg Bb. cbv zeta.
  set (v := 65536 * r + 256 * g + b).
  change 255 with (Z.ones 8). rewrite !Z.land_ones, !Z.shiftr_div_pow2 by lia.
  change (2 ^ 16) with 65536. change (2 ^ 8) with 256.
  change (2 ^ 24) with 16777216.
  assert (H2 : v / 65536 = r)
    by (symmetry; apply (Z.div_unique v 65536 r (256 * g + b)); lia).
  assert (H1 : v / 256 = 256 * r + g)
    by (symmetry; apply (Z.div_unique v 256 (256 * r + g) b); lia).
  rewrite H2, H1. repeat split; try lia.
  - apply Z.mod_small. lia.
  - symmetry. apply (Z.mod_unique (256 * r + g) 256 r g); lia.
  - symmetry. apply (Z.mod_unique v 256 (256 * r + g) b); lia.
Qed.

(** For an instance whose colour channels encode to the bytes (r, g, b),
    [Integer] is [65536 r + 256 g + b], and constructing from it gives the
    channels r/255, g/255, b/255 with alpha 1. *)
Theorem Integer_round_trip (fillStyle : string -> string) (c : ColorValue.t)
    (r g b : Z) :
  isByte r -> isByte g -> isByte b ->
  ColorValue.byte (ColorValue.r c) = Num.of_Z r ->
  ColorValue.byte (ColorValue.g c) = Num.of_Z g ->
  ColorValue.byte (ColorValue.b c) = Num.of_Z b ->
  ColorValue.Integer c = Num.of_Z (65536 * r + 256 * g + b)
  /\ ColorValue.new fillStyle (Prim (JsNumber (ColorValue.Integer c)))
     = Ok (ColorValue.mk (Num.of_Z r / 255) (Num.of_Z g / 255)
                         (Num.of_Z b / 255) 1).
Proof.
  intros Br Bg Bb Hr Hg Hb.
  rewrite (Integer_bytes c r g b Br Bg Bb Hr Hg Hb).
  split; [reflexivity|].
  pose proof (packed_bytes r g b Br Bg Bb) as P. cbv zeta in P.
  destruct P as (E2 & E1 & E0 & Hv).
  unfold ColorValue.new, ColorValue.setFrom. rewrite setInteger_bytes.
  cbv zeta. rewrite ToInt32_of_Z by lia. now rewrite E2, E1, E0.
Qed.

(** The round trip at an instance that encodes to (255, 128, 0). *)
Lemma Integer_round_trip_witness :
  let c := ColorValue.mk 1 0.5 0 0.5 in
  ColorValue.Integer c = Num.of_Z (65536 * 255 + 256 * 128 + 0)
  /\ ColorValue.new sampleCanvas (Prim (JsNumber (ColorValue.Integer c)))
     = Ok (ColorValue.mk (Num.of_Z 255 / 255) (Num.of_Z 128 / 255)
                         (Num.of_Z 0 / 255) 1).
Proof.
  intros c.
  apply (Integer_round_trip sampleCanvas c 255 128 0);
    first [ unfold isByte; lia | vm_compute; reflexivity ].
Defined.

(** ** Named colours *)

(** A name, that is a string with none of the three prefixes, is
    rejected with [UnknownNamedColor] when the canvas leaves [fillStyle]
    empty, or at ["#000000"] for a name other than ["black"]; when the canvas
    resolves it to a lower-case [#] string, it constructs what that string
    constructs. *)
Theorem named_colour (fillStyle : string -> string) (s : string) :
  let name := Str.toLowerCase (Str.trim s) in
  Str.startsWith name "#" = false -> Str.startsWith name "rgb" = false ->
  Str.startsWith name "hsl" = false ->
  (fillStyle name = EmptyString
   \/ (fillStyle name = "#000000" /\ name <> "black") ->
   ColorValue.new fillStyle (Prim (JsString s)) = Throw UnknownNamedColor)
  /\ (fillStyle name <> EmptyString ->
      fillStyle name <> "#000000" \/ name = "black" ->
      Str.toLowerCase (Str.trim (fillStyle name)) = fillStyle name ->
      Str.startsWith (fillStyle name) "#" = true ->
      ColorValue.new fillStyle (Prim (JsString s))
      = ColorValue.new fillStyle (Prim (JsString (fillStyle name)))).
Proof.
  intros name H1 H2 H3. unfold ColorValue.new, ColorValue.setFrom.
  fold name. rewrite H1, H2, H3. unfold ColorValue.setNamed. split.
  - intros [E|[E Hn]]; rewrite E.
    + reflexivity.
    + apply String.eqb_neq in Hn. rewrite Hn. reflexivity.
  - intros Hne Hk Hnorm Hhash. rewrite Hnorm, Hhash.
    apply String.eqb_neq in Hne. rewrite Hne. cbn [orb].
    destruct Hk as [Hk|Hk].
    + apply String.eqb_neq in Hk. rewrite Hk. reflexivity.
    + rewrite Hk, String.eqb_refl. cbn. now rewrite andb_false_r.
Qed.

(** A known and an unknown name on the sample canvas. *)
Lemma named_colour_witness :
  ColorValue.new sampleCanvas (Prim (JsString " Red "))
  = ColorValue.new sampleCanvas (Prim (JsString "#ff0000"))
  /\ ColorValue.new sampleCanvas (Prim (JsString "notacolor"))
     = Throw UnknownNamedColor.
Proof.
  split.
  - apply (proj2 (named_colour sampleCanvas " Red " eq_refl eq_refl eq_refl));
      first [ reflexivity | vm_compute; discriminate
            | left; vm_compute; discriminate ].
  - apply (proj1 (named_colour sampleCanvas "notacolor" eq_refl eq_refl eq_refl)).
    right. split; [reflexivity|vm_compute; discriminate].
Defined.

(** ** The CSS-RGB round trip *)

Lemma decimalCheck_all : forallb decimalCheck allBytes = true.
Proof. vm_compute. reflexivity. Qed.

Lemma byte_decimal (n : Z) :
  isByte n ->
  let d := Str.toString10 (Num.of_Z n) in
  noParen d = true /\ noComma d = true /\ d <> EmptyString
  /\ Str.toLowerCase d = d /\ Str.parseFloat (Str.trim d) = Num.of_Z n.
Proof.
  intros Hn d. pose proof (allBytes_spec _ decimalCheck_all n Hn) as H.
  unfold decimalCheck in H. fold d in H.
  apply andb_prop in H. destruct H as [H H5].
  apply andb_prop in H. destruct H as [H H4].
  apply andb_prop in H. destruct H as [H H3].
  apply andb_prop in H. destruct H as [H1 H2].
  apply negb_true_iff, String.eqb_neq in H3.
  apply String.eqb_eq in H4. apply float_eqb_eq in H5. auto.
Qed.

Lemma append_assoc_s (s t u : string) : (s ++ t) ++ u = s ++ (t ++ u).
Proof.
  induction s as [|c s IH]; [reflexivity|].
  rewrite !append_cons. now rewrite IH.
Qed.

Lemma noParen_app (s t : string) :
  noParen (s ++ t) = noParen s && noParen t.
Proof.
  induction s as [|c s IH]; [reflexivity|].
  rewrite append_cons. cbn [noParen]. now rewrite IH, andb_assoc.
Qed.

Lemma toLowerCase_app (s t : string) :
  Str.toLowerCase (s ++ t) = Str.toLowerCase s ++ Str.toLowerCase t.
Proof.
  induction s as [|c s IH]; [reflexivity|].
  rewrite append_cons. cbn [Str.toLowerCase]. now rewrite IH, append_cons.
Qed.

Lemma split_comma (s rest : string) :
  noComma s = true ->
  Str.split "," (s ++ String "," rest) = s :: Str.split "," rest.
Proof.
  induction s as [|c s IH]; intros H.
  - reflexivity.
  - cbn [noComma] in H. apply andb_prop in H. destruct H as [Hc Hs].
    apply negb_true_iff in Hc.
    rewrite append_cons. cbn [Str.split]. now rewrite Hc, (IH Hs).
Qed.

Lemma split_last (s : string) :
  noComma s = true -> Str.split "," s = [s].
Proof.
  induction s as [|c s IH]; intros H.
  - reflexivity.
  - cbn [noComma] in H. apply andb_prop in H. destruct H as [Hc Hs].
    apply negb_true_iff in Hc. cbn [Str.split]. now rewrite Hc, (IH Hs).
Qed.

Lemma trimEnd_last (s : string) (c : ascii) :
  Str.isWhiteSpace c = false ->
  Str.trimEnd (s ++ String c EmptyString) = s ++ String c EmptyString.
Proof.
  intros Hc. induction s as [|d s IH].
  - change (EmptyString ++ ?t) with t. cbn [Str.trimEnd]. now rewrite Hc.
  - rewrite append_cons. cbn [Str.trimEnd]. rewrite IH.
    destruct s; reflexivity.
Qed.

(** For an instance whose colour channels encode to the bytes (r, g, b) and
    whose alpha is not below 1, [CSSRGB] is ["rgb(r, g, b)"] in decimal, and
    constructing from it gives the channels r/255, g/255, b/255 with
    alpha 1. *)
Theorem CSSRGB_round_trip (fillStyle : string -> string) (c : ColorValue.t)
    (r g b : Z) :
  isByte r -> isByte g -> isByte b ->
  ColorValue.byte (ColorValue.r c) = Num.of_Z r ->
  ColorValue.byte (ColorValue.g c) = Num.of_Z g ->
  ColorValue.byte (ColorValue.b c) = Num.of_Z b ->
  (ColorValue.a c <? 1)%float = false ->
  ColorValue.CSSRGB c
  = "rgb(" ++ Str.toString10 (Num.of_Z r) ++ ", "
           ++ Str.toString10 (Num.of_Z g) ++ ", "
           ++ Str.toString10 (Num.of_Z b) ++ ")"
  /\ ColorValue.new fillStyle (Prim (JsString (ColorValue.CSSRGB c)))
     = Ok (ColorValue.mk (Num.of_Z r / 255) (Num.of_Z g / 255)
                         (Num.of_Z b / 255) 1).
Proof.
  intros Br Bg Bb Hr Hg Hb Ha.
  assert (E : ColorValue.CSSRGB c
              = "rgb(" ++ Str.toString10 (Num.of_Z r) ++ ", "
                       ++ Str.toString10 (Num.of_Z g) ++ ", "
                       ++ Str.toString10 (Num.of_Z b) ++ ")").
  { unfold ColorValue.CSSRGB. now rewrite Hr, Hg, Hb, Ha. }
  split; [exact E|]. rewrite E. clear E.
  pose proof (byte_decimal r Br) as Dr. pose proof (byte_decimal g Bg) as Dg.
  pose proof (byte_decimal b Bb) as Db. cbv zeta in Dr, Dg, Db.
  destruct Dr as (Pr & Cr & Nr & Lr & Fr).
  destruct Dg as (Pg & Cg & Ng & Lg & Fg).
  destruct Db as (Pb & Cb & Nb & Lb & Fb).
  destruct (byte_hex r Br) as (? & ? & _ & _ & _ & _ & Kr & _).
  destruct (byte_hex g Bg) as (? & ? & _ & _ & _ & _ & Kg & _).
  destruct (byte_hex b Bb) as (? & ? & _ & _ & _ & _ & Kb & _).
  set (dr := Str.toString10 (Num.of_Z r)) in *.
  set (dg := Str.toString10 (Num.of_Z g)) in *.
  set (db := Str.toString10 (Num.of_Z b)) in *.
  set (args := dr ++ String "," (String " " (dg ++ String "," (String " " db)))).
  assert (W : "rgb(" ++ dr ++ ", " ++ dg ++ ", " ++ db ++ ")"
              = String "r" (String "g" (String "b" (String "("
                  (args ++ String ")" EmptyString))))).
  { unfold args. change ("rgb(" ++ ?t) with
      (String "r" (String "g" (String "b" (String "(" t)))).
    do 4 f_equal. change (", " ++ ?t) with (String "," (String " " t)).
    rewrite !append_assoc_s, !append_cons. f_equal. f_equal. f_equal.
    now rewrite !append_assoc_s, !append_cons. }
  rewrite W.
  assert (Pa : noParen args = true).
  { unfold args. rewrite noParen_app. cbn [noParen].
    rewrite noParen_app. cbn [noParen]. rewrite Pr, Pg, Pb. reflexivity. }
  assert (Na : args <> EmptyString).
  { unfold args. destruct dr; [contradiction|discriminate]. }
  assert (Hlow : Str.toLowerCase args = args).
  { unfold args. rewrite toLowerCase_app. cbn [Str.toLowerCase].
    rewrite toLowerCase_app. cbn [Str.toLowerCase].
    rewrite Lr, Lg, Lb. reflexivity. }
  unfold ColorValue.new, ColorValue.setFrom.
  assert (Htrim : Str.trim (String "r" (String "g" (String "b" (String "("
                      (args ++ String ")" EmptyString)))))
                  = String "r" (String "g" (String "b" (String "("
                      (args ++ String ")" EmptyString))))).
  { unfold Str.trim. cbn [Str.trimStart]. change (Str.isWhiteSpace "r") with false.
    cbv iota.
    change (String "r" (String "g" (String "b" (String "(" (args ++ String ")" EmptyString)))))
      with (String "r" (String "g" (String "b" (String "(" args))) ++ String ")" EmptyString).
    now apply trimEnd_last. }
  rewrite Htrim. cbn [Str.toLowerCase].
  rewrite toLowerCase_app, Hlow.
  change (Str.lowerChar "r") with "r"%char. change (Str.lowerChar "g") with "g"%char.
  change (Str.lowerChar "b") with "b"%char. change (Str.lowerChar "(") with "("%char.
  change (Str.toLowerCase (String ")" EmptyString)) with (String ")" EmptyString).
  change (Str.startsWith (String "r" ?t) "#") with false.
  change (Str.startsWith (String "r" (String "g" (String "b" ?t))) "rgb")
    with (String.prefix EmptyString t).
  cbn [String.prefix]. cbv iota.
  unfold ColorValue.setCSSRGB. cbn [Str.search].
  assert (M : Str.matchHere "rgb"
                (String "r" (String "g" (String "b" (String "("
                   (args ++ String ")" EmptyString))))) = Some args)
    by (apply (matchHere_complete "rgb" EmptyString args EmptyString); auto).
  rewrite M.
  assert (Hsplit : Str.split "," args = [dr; String " " dg; String " " db]).
  { unfold args. rewrite (split_comma dr) by assumption.
    change (String " " (dg ++ String "," (String " " db)))
      with (String " " dg ++ String "," (String " " db)).
    rewrite (split_comma (String " " dg)) by (cbn [noComma]; now rewrite Cg).
    rewrite (split_last (String " " db)) by (cbn [noComma]; now rewrite Cb).
    reflexivity. }
  rewrite Hsplit. cbn [map]. unfold item. cbn [lookup list_lookup default].
  change (Str.trim (String " " dg)) with (Str.trim dg).
  change (Str.trim (String " " db)) with (Str.trim db).
  rewrite Fr, Fg, Fb. cbn [ToNumber option_map from_option id].
  unfold ColorValue.setRGBAf. rewrite Kr, Kg, Kb.
  reflexivity.
Qed.

(** The round trip at an opaque instance that encodes to (255, 128, 0). *)
Lemma CSSRGB_round_trip_witness :
  let c := ColorValue.mk 1 0.5 0 1 in
  ColorValue.CSSRGB c
  = "rgb(" ++ Str.toString10 (Num.of_Z 255) ++ ", "
           ++ Str.toString10 (Num.of_Z 128) ++ ", "
           ++ Str.toString10 (Num.of_Z 0) ++ ")"
  /\ ColorValue.new sampleCanvas (Prim (JsString (ColorValue.CSSRGB c)))
     = Ok (ColorValue.mk (Num.of_Z 255 / 255) (Num.of_Z 128 / 255)
                         (Num.of_Z 0 / 255) 1).
Proof.
  intros c.
  apply (CSSRGB_round_trip sampleCanvas c 255 128 0);
    first [ unfold isByte; lia | vm_compute; reflexivity ].
Defined.

(** ** Records of bytes *)

Lemma has_Some (o : gmap string JsPrim) (k : string) (v : JsPrim) :
  o !! k = Some v -> has o k = true /\ prop o k = v.
Proof.
  intros H. unfold has, prop. rewrite H. split; [|reflexivity].
  apply bool_decide_eq_true_2. eauto.
Qed.

(** A record whose [r], [g], [b] are the bytes (r, g, b) constructs the
    channels r/255, g/255, b/255, whatever else it holds, and [RGBA] gives
    the three bytes back; its alpha is the clamped [normalizeAlpha] divided
    by 255. *)
Theorem rgb_record_bytes (fillStyle : string -> string)
    (o : gmap string JsPrim) (r g b : Z) :
  isByte r -> isByte g -> isByte b ->
  o !! "r" = Some (JsNumber (Num.of_Z r)) ->
  o !! "g" = Some (JsNumber (Num.of_Z g)) ->
  o !! "b" = Some (JsNumber (Num.of_Z b)) ->
  let c := ColorValue.mk (Num.of_Z r / 255) (Num.of_Z g / 255)
                         (Num.of_Z b / 255)
                         (clamp01 (normalizeAlpha (prop o "a") / 255)) in
  ColorValue.new fillStyle (ObjectOf o) = Ok c
  /\ (ColorValue.byte (ColorValue.r c), ColorValue.byte (ColorValue.g c),
      ColorValue.byte (ColorValue.b c))
     = (Num.of_Z r, Num.of_Z g, Num.of_Z b).
Proof.
  intros Br Bg Bb Hr Hg Hb c.
  destruct (has_Some o _ _ Hr) as [Ir Pr].
  destruct (has_Some o _ _ Hg) as [Ig Pg].
  destruct (has_Some o _ _ Hb) as [Ib Pb].
  destruct (byte_hex r Br) as (? & ? & _ & _ & _ & _ & Kr & Rr).
  destruct (byte_hex g Bg) as (? & ? & _ & _ & _ & _ & Kg & Rg).
  destruct (byte_hex b Bb) as (? & ? & _ & _ & _ & _ & Kb & Rb).
  split.
  - unfold ColorValue.new, ColorValue.setFrom. rewrite Ir, Ig, Ib, Pr, Pg, Pb.
    cbn [andb]. unfold ColorValue.setRGBA, ColorValue.setRGBAf, ToNumber.
    now rewrite Kr, Kg, Kb.
  - unfold c. cbn [ColorValue.r ColorValue.g ColorValue.b].
    now rewrite Rr, Rg, Rb.
Qed.

(** The record of bytes at the sample record with both groups of keys. *)
Lemma rgb_record_bytes_witness :
  let c := ColorValue.mk (Num.of_Z 255 / 255) (Num.of_Z 0 / 255)
                         (Num.of_Z 0 / 255)
                         (clamp01 (normalizeAlpha (prop bothRecord "a") / 255)) in
  ColorValue.new sampleCanvas (ObjectOf bothRecord) = Ok c
  /\ (ColorValue.byte (ColorValue.r c), ColorValue.byte (ColorValue.g c),
      ColorValue.byte (ColorValue.b c))
     = (Num.of_Z 255, Num.of_Z 0, Num.of_Z 0).
Proof.
  apply (rgb_record_bytes sampleCanvas bothRecord 255 0 0);
    first [ unfold isByte; lia | vm_compute; reflexivity ].
Defined.

(** ** Short hex strings *)

(** A three-character hex string decodes as the six-character string that
    doubles each character, whatever the characters are. *)
Theorem setHex_shorthand (c0 c1 c2 : ascii) :
  ColorValue.setHex (String "#" (String c0 (String c1 (String c2 EmptyString))))
  = ColorValue.setHex
      (String "#" (String c0 (String c0 (String c1 (String c1
         (String c2 (String c2 EmptyString))))))).
Proof.
  unfold ColorValue.setHex. rewrite !removeFirst_hit.
  hex_slices. reflexivity.
Qed.
